(** * Prettify Symbols Mode: the extension's entry points (src/extension.ts)

    A shallow embedding of the extension glue.  The module-level variables
    become one [State] record and every function of the source becomes a
    computation in a small state-and-exception monad, in which the state
    written before a throw stays written, as in JavaScript.

    The collaborators that live elsewhere (the document controller, the
    TextMate registry, the observers handed in through the API) are
    represented by the calls the extension makes on them, recorded in an
    effect log.  Every such call (the controller's constructor and methods,
    [dispose], the observers, the registry's constructor) may throw, as an
    oracle over the log decides: inside a [try] block the throw reaches the
    [catch], outside it leaves the function, and what the function had still
    to do is not done.

    [openDocument] is an [async] function with one [await]: the part before
    it and the part after it are two computations, and a call that has
    reached the [await] is kept in the state until its promise settles. *)

From stdpp Require Import base decidable option list strings.
From Stdlib Require Import Lia.

Local Open Scope string_scope.
Local Open Scope list_scope.

(** ** Data model *)

(** A [vscode.Uri] object.  The [documents] map is a JavaScript [Map] keyed by
    the object itself, so only its identity matters. *)
Definition Uri := nat.

(** An observer closure registered through [onDidEnabledChange]; a [Set] of
    functions distinguishes them by identity. *)
Definition Handler := nat.

(** Identity of an object passed to [registerSubstitutions]. *)
Definition ObjId := nat.

(** A thrown JavaScript value. *)
Definition Error := string.

Record TextDocument := {
  uri : Uri;
  languageId : string;
}.

Record TextEditor := {
  document : TextDocument;
}.

Record TextEditorSelectionChangeEvent := {
  textEditor : TextEditor;
}.

(** [Substitution] of ./configuration: the source only inspects [scope]. *)
Record Substitution := {
  ugly : string;
  pretty : string;
  scope : option string;
}.

(** [LanguageEntry] of ./configuration.  An optional field that is
    [undefined] is [None]. *)
Module LanguageEntry.
Record t := {
  language : string;
  substitutions : list Substitution;
  revealOn : option string;
  adjustCursorMovement : option bool;
  prettyCursor : option string;
  combineIdenticalScopes : option bool;
  textMateInitialScope : option string;
}.
End LanguageEntry.
Abbreviation LanguageEntry := LanguageEntry.t.

(** [Settings] of ./configuration, as [reloadConfiguration] builds it. *)
Module Settings.
Record t := {
  substitutions : list LanguageEntry;
  revealOn : string;
  adjustCursorMovement : bool;
  prettyCursor : string;
  hideTextMethod : string;
}.
End Settings.
Abbreviation Settings := Settings.t.

(** What [vscode.workspace.getConfiguration("prettifySymbolsMode")] holds:
    a key the user did not set is [None]. *)
Module Configuration.
Record t := {
  substitutions : option (list LanguageEntry);
  revealOn : option string;
  adjustCursorMovement : option bool;
  prettyCursor : option string;
  hideTextMethod : option string;
}.
(** [configuration.get<T>(key, defaultValue)] *)
Definition get {A} (value : option A) (defaultValue : A) : A :=
  match value with
  | Some v => v
  | None => defaultValue
  end.
End Configuration.
Abbreviation Configuration := Configuration.t.

(** One grammar contribution of an installed extension's package.json. *)
Record ExtensionGrammar := {
  g_language : option string;
  g_scopeName : option string;
  g_path : option string;
}.

(** The part of the host the extension reads. *)
Record Host := {
  (** the grammars contributed by [vscode.extensions.all], flattened *)
  grammars : list ExtensionGrammar;
  configuration : Configuration;
  (** [vscode.workspace.textDocuments] *)
  textDocuments : list TextDocument;
}.

(** A loaded [tm.IGrammar], named by the scope it was loaded for. *)
Variant IGrammar := GrammarFor (scopeName : option string).

(** The [tm.Registry] built over [grammarLocator]. *)
Variant Registry := RegistryOver.

(** A [PrettyDocumentController]: the arguments it was constructed with. *)
Record PrettyDocumentController := {
  ctl_doc : TextDocument;
  ctl_language : LanguageEntry;
  ctl_hideTextMethod : string;
  ctl_textMateGrammar : option IGrammar;
}.

(** An [openDocument] call suspended at [await loadGrammar(scopeName)]. *)
Record Pending := {
  p_doc : TextDocument;
  p_language : LanguageEntry;
  p_scopeName : option string;
}.

(** How the awaited promise settles. *)
Variant Settled :=
  | Resolved (grammar : IGrammar)
  | Rejected (err : Error).

(** Calls the extension makes on its collaborators. *)
Inductive Effect :=
  | NewRegistry
  | NewController (c : PrettyDocumentController)
  | Refresh (c : PrettyDocumentController)
  | Dispose (c : PrettyDocumentController)
  | CopyDecorated (c : PrettyDocumentController) (editor : TextEditor)
  | GotFocus (c : PrettyDocumentController) (editor : TextEditor)
  | SelectionChanged (c : PrettyDocumentController) (editor : TextEditor)
  | Notify (h : Handler) (enabled : bool)
  | ConsoleError (err : Error).

(** ** JavaScript [Map] and [Set]

    Both iterate in insertion order, so they are kept as lists. *)
Module JsMap.
Section Ops.
Context {V : Type}.
Definition t := list (Uri * V).

Fixpoint get (k : Uri) (m : t) : option V :=
  match m with
  | [] => None
  | (k', v) :: m' => if Nat.eqb k' k then Some v else get k m'
  end.

(** An existing key keeps its position, a new one goes last. *)
Fixpoint set (k : Uri) (v : V) (m : t) : t :=
  match m with
  | [] => [(k, v)]
  | (k', v') :: m' =>
      if Nat.eqb k' k then (k, v) :: m' else (k', v') :: set k v m'
  end.

Fixpoint delete (k : Uri) (m : t) : t :=
  match m with
  | [] => []
  | (k', v') :: m' =>
      if Nat.eqb k' k then delete k m' else (k', v') :: delete k m'
  end.

Definition values (m : t) : list V := map snd m.
Definition clear (m : t) : t := [].
End Ops.
Arguments t : clear implicits.
End JsMap.

Module JsSet.
Section Ops.
Context {A : Type} (key : A -> nat).
Definition t := list A.

Definition has (x : A) (s : t) : bool :=
  existsb (fun y => Nat.eqb (key y) (key x)) s.

Definition add (x : A) (s : t) : t :=
  if has x s then s else s ++ [x].

Fixpoint delete (x : A) (s : t) : t :=
  match s with
  | [] => []
  | y :: s' =>
      if Nat.eqb (key y) (key x) then delete x s' else y :: delete x s'
  end.
End Ops.
Arguments t : clear implicits.
End JsSet.

(** ** Module-level state *)

Record State := {
  (** globally enable or disable all substitutions *)
  prettySymbolsEnabled : bool;
  (** tracks all documents that substitutions are being applied to *)
  documents : JsMap.t PrettyDocumentController;
  (** the current configuration *)
  settings : Settings;
  onEnabledChangeHandlers : JsSet.t Handler;
  additionalSubstitutions : JsSet.t (ObjId * LanguageEntry);
  textMateRegistry : option Registry;
  (** [openDocument] calls waiting for their grammar *)
  pending : list Pending;
  (** calls made on collaborators so far, oldest first *)
  effects : list Effect;
}.

(** ** The monad: state that survives a throw *)

Inductive Result (A : Type) :=
  | Ok (a : A)
  | Throw (err : Error).
Arguments Ok {A} a.
Arguments Throw {A} err.

Definition M (A : Type) : Type := State -> State * Result A.

Definition ret {A} (a : A) : M A := fun st => (st, Ok a).

Definition bind {A B} (m : M A) (k : A -> M B) : M B :=
  fun st =>
    match m st with
    | (st', Ok a) => k a st'
    | (st', Throw e) => (st', Throw e)
    end.

(** [try { body } catch (err) { handler }] *)
Definition try_catch {A} (body : M A) (handler : Error -> M A) : M A :=
  fun st =>
    match body st with
    | (st', Ok a) => (st', Ok a)
    | (st', Throw e) => handler e st'
    end.

Definition gets {A} (f : State -> A) : M A := fun st => (st, Ok (f st)).
Definition modify (f : State -> State) : M unit := fun st => (f st, Ok tt).

#[global] Instance M_ret : MRet M := @ret.
#[global] Instance M_bind : MBind M := fun A B k m => bind m k.

Fixpoint forEach {A} (f : A -> M unit) (l : list A) : M unit :=
  match l with
  | [] => ret tt
  | x :: l' => f x ;; forEach f l'
  end.

(** The state a computation leaves. *)
Definition exec {A} (m : M A) (st : State) : State := fst (m st).

(** Field updates. *)
Definition with_enabled (b : bool) (st : State) : State :=
  {| prettySymbolsEnabled := b; documents := documents st;
     settings := settings st;
     onEnabledChangeHandlers := onEnabledChangeHandlers st;
     additionalSubstitutions := additionalSubstitutions st;
     textMateRegistry := textMateRegistry st; pending := pending st;
     effects := effects st |}.

Definition with_documents (d : JsMap.t PrettyDocumentController) (st : State)
  : State :=
  {| prettySymbolsEnabled := prettySymbolsEnabled st; documents := d;
     settings := settings st;
     onEnabledChangeHandlers := onEnabledChangeHandlers st;
     additionalSubstitutions := additionalSubstitutions st;
     textMateRegistry := textMateRegistry st; pending := pending st;
     effects := effects st |}.

Definition with_settings (s : Settings) (st : State) : State :=
  {| prettySymbolsEnabled := prettySymbolsEnabled st;
     documents := documents st; settings := s;
     onEnabledChangeHandlers := onEnabledChangeHandlers st;
     additionalSubstitutions := additionalSubstitutions st;
     textMateRegistry := textMateRegistry st; pending := pending st;
     effects := effects st |}.

Definition with_handlers (hs : JsSet.t Handler) (st : State) : State :=
  {| prettySymbolsEnabled := prettySymbolsEnabled st;
     documents := documents st; settings := settings st;
     onEnabledChangeHandlers := hs;
     additionalSubstitutions := additionalSubstitutions st;
     textMateRegistry := textMateRegistry st; pending := pending st;
     effects := effects st |}.

Definition with_additional (a : JsSet.t (ObjId * LanguageEntry)) (st : State)
  : State :=
  {| prettySymbolsEnabled := prettySymbolsEnabled st;
     documents := documents st; settings := settings st;
     onEnabledChangeHandlers := onEnabledChangeHandlers st;
     additionalSubstitutions := a;
     textMateRegistry := textMateRegistry st; pending := pending st;
     effects := effects st |}.

Definition with_registry (r : option Registry) (st : State) : State :=
  {| prettySymbolsEnabled := prettySymbolsEnabled st;
     documents := documents st; settings := settings st;
     onEnabledChangeHandlers := onEnabledChangeHandlers st;
     additionalSubstitutions := additionalSubstitutions st;
     textMateRegistry := r; pending := pending st;
     effects := effects st |}.

Definition with_pending (p : list Pending) (st : State) : State :=
  {| prettySymbolsEnabled := prettySymbolsEnabled st;
     documents := documents st; settings := settings st;
     onEnabledChangeHandlers := onEnabledChangeHandlers st;
     additionalSubstitutions := additionalSubstitutions st;
     textMateRegistry := textMateRegistry st; pending := p;
     effects := effects st |}.

Definition with_effects (e : list Effect) (st : State) : State :=
  {| prettySymbolsEnabled := prettySymbolsEnabled st;
     documents := documents st; settings := settings st;
     onEnabledChangeHandlers := onEnabledChangeHandlers st;
     additionalSubstitutions := additionalSubstitutions st;
     textMateRegistry := textMateRegistry st; pending := pending st;
     effects := e |}.

(** [console.error]: a call that returns; it is only recorded. *)
Definition emit (e : Effect) : M unit :=
  modify (fun st => with_effects (effects st ++ [e]) st).

(** ** The functions of extension.ts *)

(** The flattening of [vscode.extensions.all] is [grammars h]; a scope name
    missing from the matching contribution is [undefined]. *)
Definition getLanguageScopeName (h : Host) (languageId : string)
  : option string :=
  match List.filter
          (fun g => match g_language g with
                    | Some l => String.eqb l languageId
                    | None => false
                    end)
          (grammars h) with
  | g :: _ => g_scopeName g
  | [] => Some (String.append "source." languageId)
  end.

Definition getLanguageEntry (st : State) (doc : TextDocument)
  : option LanguageEntry :=
  let lang := languageId doc in
  if String.eqb lang "plaintext" || String.eqb lang "jsonc" then None
  else
    List.find (fun entry => String.eqb (LanguageEntry.language entry) lang)
      (Settings.substitutions (settings st)).

(** [a || b] on optional strings: [undefined] and the empty string are
    falsy. *)
Definition js_or (a b : option string) : option string :=
  match a with
  | Some s => if String.eqb s "" then b else Some s
  | None => b
  end.

(** Set default values for language-properties that were not specified. *)
Definition setDefaults (s : Settings) (language : LanguageEntry)
  : LanguageEntry :=
  {| LanguageEntry.language := LanguageEntry.language language;
     LanguageEntry.substitutions := LanguageEntry.substitutions language;
     LanguageEntry.revealOn :=
       match LanguageEntry.revealOn language with
       | None => Some (Settings.revealOn s)
       | Some v => Some v
       end;
     LanguageEntry.adjustCursorMovement :=
       match LanguageEntry.adjustCursorMovement language with
       | None => Some (Settings.adjustCursorMovement s)
       | Some v => Some v
       end;
     LanguageEntry.prettyCursor :=
       match LanguageEntry.prettyCursor language with
       | None => Some (Settings.prettyCursor s)
       | Some v => Some v
       end;
     LanguageEntry.combineIdenticalScopes :=
       match LanguageEntry.combineIdenticalScopes language with
       | None => Some false
       | Some v => Some v
       end;
     LanguageEntry.textMateInitialScope :=
       LanguageEntry.textMateInitialScope language |}.

(** The [settings] object of [reloadConfiguration], after its loop over
    [settings.substitutions]. *)
Definition loadSettings (c : Configuration) : Settings :=
  let s :=
    {| Settings.substitutions :=
         Configuration.get (Configuration.substitutions c) [];
       Settings.revealOn :=
         Configuration.get (Configuration.revealOn c) "cursor";
       Settings.adjustCursorMovement :=
         Configuration.get (Configuration.adjustCursorMovement c) false;
       Settings.prettyCursor :=
         Configuration.get (Configuration.prettyCursor c) "boxed";
       Settings.hideTextMethod :=
         Configuration.get (Configuration.hideTextMethod c)
           "hack-letterSpacing" |} in
  {| Settings.substitutions := map (setDefaults s) (Settings.substitutions s);
     Settings.revealOn := Settings.revealOn s;
     Settings.adjustCursorMovement := Settings.adjustCursorMovement s;
     Settings.prettyCursor := Settings.prettyCursor s;
     Settings.hideTextMethod := Settings.hideTextMethod s |}.

(** [language.substitutions.some(s => s.scope !== undefined)] *)
Definition usesScopes (language : LanguageEntry) : bool :=
  existsb (fun s => bool_decide (scope s ≠ None))
    (LanguageEntry.substitutions language).

(** [new PrettyDocumentController(doc, language,
    { hideTextMethod: settings.hideTextMethod, textMateGrammar: grammar })] *)
Definition newController (st : State) (doc : TextDocument)
    (language : LanguageEntry) (grammar : option IGrammar)
  : PrettyDocumentController :=
  {| ctl_doc := doc; ctl_language := language;
     ctl_hideTextMethod := Settings.hideTextMethod (settings st);
     ctl_textMateGrammar := grammar |}.

Section Extension.

(** Whether a call on a collaborator throws, given the calls made before it:
    the hidden state of the collaborators. *)
Variable throws : list Effect -> Effect -> option Error.

Definition call (e : Effect) : M unit :=
  fun st =>
    let st' := with_effects (effects st ++ [e]) st in
    match throws (effects st) e with
    | Some err => (st', Throw err)
    | None => (st', Ok tt)
    end.

Definition unloadDocuments : M unit :=
  docs ← gets documents;
  forEach (fun prettyDoc => call (Dispose prettyDoc)) (JsMap.values docs);;
  modify (fun st => with_documents (JsMap.clear (documents st)) st).

(** [documents.set(doc.uri, new PrettyDocumentController(...))]: the
    constructor runs first, and the map is written when it returns. *)
Definition createController (doc : TextDocument) (language : LanguageEntry)
    (grammar : option IGrammar) : M unit :=
  c ← gets (fun st => newController st doc language grammar);
  call (NewController c);;
  modify (fun st =>
    with_documents (JsMap.set (uri doc) c (documents st)) st).

(** [await]: the rest of the call is parked until the promise settles. *)
Definition await (p : Pending) : M unit :=
  modify (fun st => with_pending (pending st ++ [p]) st).

(** [openDocument] up to its [await], or to its end when it does not
    load a grammar. *)
Definition openDocument (h : Host) (doc : TextDocument) : M unit :=
  enabled ← gets prettySymbolsEnabled;
  if negb enabled then mret tt
  else
    try_catch
      (prettyDoc ← gets (fun st => JsMap.get (uri doc) (documents st));
       match prettyDoc with
       | Some c => call (Refresh c)
       | None =>
           language ← gets (fun st => getLanguageEntry st doc);
           match language with
           | Some language =>
               if Nat.ltb 0 (length (LanguageEntry.substitutions language)) then
                 registry ← gets textMateRegistry;
                 if bool_decide (registry ≠ None) && usesScopes language then
                   let scopeName :=
                     js_or (LanguageEntry.textMateInitialScope language)
                       (getLanguageScopeName h (languageId doc)) in
                   await {| p_doc := doc; p_language := language;
                            p_scopeName := scopeName |}
                 else createController doc language None
               else mret tt
           | None => mret tt
           end
       end)
      (fun _ => mret tt).

(** [openDocument] from the point where [loadGrammar]'s promise settles. *)
Definition resumeOpen (p : Pending) (r : Settled) : M unit :=
  try_catch
    (grammar ← match r with
               | Resolved g => mret (Some g)
               | Rejected err => emit (ConsoleError err);; mret None
               end;
     createController (p_doc p) (p_language p) grammar)
    (fun _ => mret tt).

Definition closeDocument (doc : TextDocument) : M unit :=
  prettyDoc ← gets (fun st => JsMap.get (uri doc) (documents st));
  match prettyDoc with
  | Some c =>
      call (Dispose c);;
      modify (fun st =>
        with_documents (JsMap.delete (uri doc) (documents st)) st)
  | None => mret tt
  end.

(** Re-read the settings and recreate substitutions for all documents. *)
Definition reloadConfiguration (h : Host) : M unit :=
  try_catch
    (call NewRegistry;; modify (with_registry (Some RegistryOver)))
    (fun err => modify (with_registry None);; emit (ConsoleError err));;
  modify (with_settings (loadSettings (configuration h)));;
  unloadDocuments;;
  forEach (openDocument h) (textDocuments h).

Definition onConfigurationChanged (h : Host) : M unit :=
  reloadConfiguration h.

Definition notifyEnabledChange (enabled : bool) : M unit :=
  hs ← gets onEnabledChangeHandlers;
  forEach (fun h => call (Notify h enabled)) hs.

Definition disablePrettySymbols : M unit :=
  modify (with_enabled false);;
  notifyEnabledChange false;;
  unloadDocuments.

Definition enablePrettySymbols (h : Host) : M unit :=
  modify (with_enabled true);;
  notifyEnabledChange true;;
  reloadConfiguration h.

Definition togglePrettySymbols (h : Host) : M unit :=
  enabled ← gets prettySymbolsEnabled;
  if (enabled : bool) then disablePrettySymbols else enablePrettySymbols h.

(** clean-up; this extension is being unloaded *)
Definition deactivate : M unit :=
  notifyEnabledChange false;;
  unloadDocuments.

Definition copyWithSubstitutions (editor : option TextEditor) : M unit :=
  try_catch
    (match editor with
     | None => mret tt
     | Some editor =>
         prettyDoc ←
           gets (fun st => JsMap.get (uri (document editor)) (documents st));
         match prettyDoc with
         | Some c => call (CopyDecorated c editor)
         | None => mret tt
         end
     end)
    (fun _ => mret tt).

Definition changeActiveTextEditor (editor : option TextEditor) : M unit :=
  try_catch
    (match editor with
     | None => mret tt
     | Some editor =>
         prettyDoc ←
           gets (fun st => JsMap.get (uri (document editor)) (documents st));
         match prettyDoc with
         | Some c => call (GotFocus c editor)
         | None => mret tt
         end
     end)
    (fun _ => mret tt).

(** A text editor selection changed; forward the event to the relevant
    document. *)
Definition selectionChanged (event : TextEditorSelectionChangeEvent)
  : M unit :=
  try_catch
    (prettyDoc ←
       gets (fun st =>
         JsMap.get (uri (document (textEditor event))) (documents st));
     match prettyDoc with
     | Some c => call (SelectionChanged c (textEditor event))
     | None => mret tt
     end)
    (fun e => emit (ConsoleError e)).

(** *** The object [activate] returns *)

Definition onDidEnabledChange (handler : Handler) : M unit :=
  modify (fun st =>
    with_handlers (JsSet.add id handler (onEnabledChangeHandlers st)) st).

Definition onDidEnabledChange_dispose (handler : Handler) : M unit :=
  modify (fun st =>
    with_handlers (JsSet.delete id handler (onEnabledChangeHandlers st)) st).

Definition isEnabled : M bool := gets prettySymbolsEnabled.

Definition registerSubstitutions (h : Host)
    (substitutions : ObjId * LanguageEntry) : M unit :=
  modify (fun st =>
    with_additional
      (JsSet.add fst substitutions (additionalSubstitutions st)) st);;
  reloadConfiguration h.

Definition registerSubstitutions_dispose
    (substitutions : ObjId * LanguageEntry) : M unit :=
  modify (fun st =>
    with_additional
      (JsSet.delete fst substitutions (additionalSubstitutions st)) st).

(** initialize everything; main entry point.  Registering the commands and
    the event subscriptions changes no module variable; what is left is the
    first [reloadConfiguration]. *)
Definition activate (h : Host) : M unit := reloadConfiguration h.

End Extension.

(** ** The extension as a machine driven by the host

    The subscriptions and commands that [activate] registers become the
    events below; each carries the snapshot of the host it runs against.  A
    suspended [openDocument] is resumed by [GrammarSettled], at any later
    time and in any order, as promises are. *)

(** The module-level variables as extension.ts initialises them.  [settings]
    is unassigned until [activate] runs [reloadConfiguration], which writes it
    before anything reads it. *)
Definition moduleState : State :=
  {| prettySymbolsEnabled := true;
     documents := [];
     settings := loadSettings
       {| Configuration.substitutions := None; Configuration.revealOn := None;
          Configuration.adjustCursorMovement := None;
          Configuration.prettyCursor := None;
          Configuration.hideTextMethod := None |};
     onEnabledChangeHandlers := [];
     additionalSubstitutions := [];
     textMateRegistry := None;
     pending := [];
     effects := [] |}.

Inductive Event :=
  | Activate (h : Host)
  | DidOpenTextDocument (h : Host) (doc : TextDocument)
  | DidCloseTextDocument (doc : TextDocument)
  | DidChangeConfiguration (h : Host)
  | DidChangeTextEditorSelection (event : TextEditorSelectionChangeEvent)
  | DidChangeActiveTextEditor (editor : option TextEditor)
  | CopyWithSubstitutions (editor : option TextEditor)
  | DisablePrettySymbols
  | EnablePrettySymbols (h : Host)
  | TogglePrettySymbols (h : Host)
  | OnDidEnabledChange (handler : Handler)
  | DisposeEnabledChange (handler : Handler)
  | RegisterSubstitutions (h : Host) (substitutions : ObjId * LanguageEntry)
  | DisposeSubstitutions (substitutions : ObjId * LanguageEntry)
  | GrammarSettled (i : nat) (r : Settled)
  | Deactivate.

Section Machine.

Variable throws : list Effect -> Effect -> option Error.

Definition settle (i : nat) (r : Settled) : M unit :=
  ps ← gets pending;
  match ps !! i with
  | Some p =>
      modify (with_pending (take i ps ++ drop (S i) ps));;
      resumeOpen throws p r
  | None => mret tt
  end.

Definition dispatch (ev : Event) : M unit :=
  match ev with
  | Activate h => activate throws h
  | DidOpenTextDocument h doc => openDocument throws h doc
  | DidCloseTextDocument doc => closeDocument throws doc
  | DidChangeConfiguration h => onConfigurationChanged throws h
  | DidChangeTextEditorSelection event => selectionChanged throws event
  | DidChangeActiveTextEditor editor => changeActiveTextEditor throws editor
  | CopyWithSubstitutions editor => copyWithSubstitutions throws editor
  | DisablePrettySymbols => disablePrettySymbols throws
  | EnablePrettySymbols h => enablePrettySymbols throws h
  | TogglePrettySymbols h => togglePrettySymbols throws h
  | OnDidEnabledChange handler => onDidEnabledChange handler
  | DisposeEnabledChange handler => onDidEnabledChange_dispose handler
  | RegisterSubstitutions h s => registerSubstitutions throws h s
  | DisposeSubstitutions s => registerSubstitutions_dispose s
  | GrammarSettled i r => settle i r
  | Deactivate => deactivate throws
  end.

Fixpoint run (evs : list Event) (st : State) : State :=
  match evs with
  | [] => st
  | ev :: evs' => run evs' (exec (dispatch ev) st)
  end.

End Machine.

(** ** Sample data *)

Definition never_throws : list Effect -> Effect -> option Error :=
  fun _ _ => None.

Definition arrow : Substitution :=
  {| ugly := "->"; pretty := "→"; scope := None |}.

Definition scoped_arrow : Substitution :=
  {| ugly := "->"; pretty := "→"; scope := Some "keyword.operator" |}.

Definition entry_for (lang : string) (subs : list Substitution)
  : LanguageEntry :=
  {| LanguageEntry.language := lang;
     LanguageEntry.substitutions := subs;
     LanguageEntry.revealOn := None;
     LanguageEntry.adjustCursorMovement := None;
     LanguageEntry.prettyCursor := None;
     LanguageEntry.combineIdenticalScopes := None;
     LanguageEntry.textMateInitialScope := None |}.

Definition config_with (entries : list LanguageEntry) : Configuration :=
  {| Configuration.substitutions := Some entries;
     Configuration.revealOn := None;
     Configuration.adjustCursorMovement := None;
     Configuration.prettyCursor := None;
     Configuration.hideTextMethod := None |}.

Definition host_with (entries : list LanguageEntry) (docs : list TextDocument)
  : Host :=
  {| grammars := []; configuration := config_with entries;
     textDocuments := docs |}.

Definition haskell_doc : TextDocument :=
  {| uri := 1; languageId := "haskell" |}.

Definition plain_doc : TextDocument :=
  {| uri := 2; languageId := "plaintext" |}.

(** A controller that throws on every call: the fault reaches the [catch]
    of [selectionChanged], which logs it and returns. *)
Definition always_throws : list Effect -> Effect -> option Error :=
  fun _ _ => Some "TypeError".

(** Collaborators of which one kind of call throws and every other call
    returns: the registry's constructor, the controller's constructor,
    [dispose], and the observer 5. *)
Definition registry_throws : list Effect -> Effect -> option Error :=
  fun _ e => match e with NewRegistry => Some "ENOENT" | _ => None end.

Definition constructor_throws : list Effect -> Effect -> option Error :=
  fun _ e => match e with NewController _ => Some "SyntaxError" | _ => None end.

Definition dispose_throws : list Effect -> Effect -> option Error :=
  fun _ e => match e with Dispose _ => Some "TypeError" | _ => None end.

Definition observer_5_throws : list Effect -> Effect -> option Error :=
  fun _ e => match e with Notify 5 _ => Some "TypeError" | _ => None end.

Definition haskell_session : PrettyDocumentController :=
  {| ctl_doc := haskell_doc; ctl_language := entry_for "haskell" [arrow];
     ctl_hideTextMethod := "hack-letterSpacing";
     ctl_textMateGrammar := None |}.

(** ** Auxiliary notions for the proofs *)

(** A call on an observer. *)
Definition isNotify (e : Effect) : bool :=
  match e with
  | Notify _ _ => true
  | _ => false
  end.

(** [st'] differs from [st] at most in [documents], [pending] and by calls
    appended to the log, none of them on an observer. *)
Record frame (st st' : State) : Prop := {
  frame_enabled : prettySymbolsEnabled st' = prettySymbolsEnabled st;
  frame_settings : settings st' = settings st;
  frame_handlers : onEnabledChangeHandlers st' = onEnabledChangeHandlers st;
  frame_additional : additionalSubstitutions st' = additionalSubstitutions st;
  frame_registry : textMateRegistry st' = textMateRegistry st;
  frame_effects :
    exists more,
      effects st' = effects st ++ more
      /\ Forall (fun e => isNotify e = false) more;
}.

(** A run of calls made one after the other, up to and including the first
    that throws: the calls made, and how the run ended. *)
Fixpoint callAll (throws : list Effect -> Effect -> option Error)
    (es : list Effect) (log : list Effect) : list Effect * Result unit :=
  match es with
  | [] => ([], Ok tt)
  | e :: es' =>
      match throws log e with
      | Some err => ([e], Throw err)
      | None =>
          let r := callAll throws es' (log ++ [e]) in
          (e :: fst r, snd r)
      end
  end.

(** The observers return; [dispose] returns. *)
Definition observersReturn (throws : list Effect -> Effect -> option Error)
  : Prop :=
  forall log o b, throws log (Notify o b) = None.

Definition disposeReturns (throws : list Effect -> Effect -> option Error)
  : Prop :=
  forall log c, throws log (Dispose c) = None.

(** The [dispose] calls for the sessions of a document map, in the map's
    order. *)
Definition disposals (m : JsMap.t PrettyDocumentController) : list Effect :=
  map (fun kc => Dispose (snd kc)) m.

(** The state of [reloadConfiguration] after the registry is rebuilt. *)
Definition afterRegistry (throws : list Effect -> Effect -> option Error)
    (st : State) : State :=
  match throws (effects st) NewRegistry with
  | Some err =>
      with_effects (effects st ++ [NewRegistry; ConsoleError err])
        (with_registry None st)
  | None =>
      with_registry (Some RegistryOver)
        (with_effects (effects st ++ [NewRegistry]) st)
  end.

(** The state of [reloadConfiguration] when it starts to unload the
    sessions: registry rebuilt, settings re-read. *)
Definition reloadPrefix (throws : list Effect -> Effect -> option Error)
    (h : Host) (st : State) : State :=
  with_settings (loadSettings (configuration h)) (afterRegistry throws st).

(** The state of [reloadConfiguration] when [unloadDocuments] ends, and
    whether it returned. *)
Definition reloadBase (throws : list Effect -> Effect -> option Error)
    (h : Host) (st : State) : State :=
  exec (unloadDocuments throws) (reloadPrefix throws h st).

Definition reloadUnloads (throws : list Effect -> Effect -> option Error)
    (h : Host) (st : State) : Result unit :=
  snd (unloadDocuments throws (reloadPrefix throws h st)).

(** The document map is empty whenever the enabled flag is off. *)
Definition disabled_means_empty (st : State) : Prop :=
  prettySymbolsEnabled st = false -> documents st = [].

(** A parked grammar load being settled. *)
Definition isGrammarSettled (ev : Event) : bool :=
  match ev with
  | GrammarSettled _ _ => true
  | _ => false
  end.

(** ** The coordinate mapper

    The mapper lives in the document controller (./document), which
    extension.ts only constructs and calls; this part follows the
    specification's description of it. *)
Module CoordinateMapper.

(** Modelled from the spec: the Match of the data model, which the absent
    document controller computes: a raw range [[m_start, m_end)] on a line,
    the visual length of the glyph rendered for it, and its RevealState. *)
Record Match := {
  m_start : nat;
  m_end : nat;
  glyphLength : nat;
  revealed : bool;
}.

(** Modelled from the spec: a breakpoint of the CoordinateMap of the absent
    document controller, (raw-offset, pretty-offset, raw-length,
    pretty-length). *)
Record Breakpoint := {
  rawOffset : nat;
  prettyOffset : nat;
  rawLength : nat;
  prettyLength : nat;
}.

(** Modelled from the spec: the invariants of the Matches of one line, kept by
    the absent Match Finder: sorted by start offset and non-overlapping, no
    zero-length match, and a glyph of at least one visual unit. *)
Fixpoint wellFormedFrom (lo : nat) (ms : list Match) : bool :=
  match ms with
  | [] => true
  | m :: ms' =>
      Nat.leb lo (m_start m) && Nat.ltb (m_start m) (m_end m)
      && Nat.leb 1 (glyphLength m) && wellFormedFrom (m_end m) ms'
  end.

(** Modelled from the spec: the Match invariants for a whole line, whose
    checker is in the absent Match Finder. *)
Definition wellFormed (ms : list Match) : bool := wellFormedFrom 0 ms.

(** Modelled from the spec: the absent Coordinate Mapper's construction of the
    map.  Breakpoints come only from the Matches that are not revealed; a
    revealed Match is the identity and contributes none.  The raw length is
    end - start, the pretty length is the glyph's. *)
Fixpoint buildFrom (rawEnd prettyEnd : nat) (ms : list Match)
  : list Breakpoint :=
  match ms with
  | [] => []
  | m :: ms' =>
      if revealed m then buildFrom rawEnd prettyEnd ms'
      else
        let p := prettyEnd + (m_start m - rawEnd) in
        {| rawOffset := m_start m; prettyOffset := p;
           rawLength := m_end m - m_start m;
           prettyLength := glyphLength m |}
        :: buildFrom (m_end m) (p + glyphLength m) ms'
  end.

(** Modelled from the spec: the CoordinateMap of a line, which the absent
    Coordinate Mapper rebuilds from the line's Matches. *)
Definition build (ms : list Match) : list Breakpoint := buildFrom 0 0 ms.

(** Modelled from the spec: the absent mapper's search, find the last
    breakpoint at or before the offset. *)
Fixpoint lastAtOrBefore (key : Breakpoint -> nat) (x : nat)
    (cm : list Breakpoint) (found : option Breakpoint) : option Breakpoint :=
  match cm with
  | [] => found
  | b :: cm' =>
      lastAtOrBefore key x cm' (if Nat.leb (key b) x then Some b else found)
  end.

(** Modelled from the spec: the absent mapper's translation through one
    breakpoint.  Past the collapsed range a constant offset applies; an offset
    inside the range snaps to the edge closer to it (the start on a tie). *)
Definition translateAt (src dst srcLen dstLen : Breakpoint -> nat)
    (b : Breakpoint) (x : nat) : nat :=
  let srcEnd := src b + srcLen b in
  if Nat.leb srcEnd x then dst b + dstLen b + (x - srcEnd)
  else if Nat.leb (x - src b) (srcEnd - x) then dst b
  else dst b + dstLen b.

(** Modelled from the spec: the absent mapper's translation given the
    breakpoint found; before the first breakpoint offsets are unchanged. *)
Definition translateWith (src dst srcLen dstLen : Breakpoint -> nat)
    (found : option Breakpoint) (x : nat) : nat :=
  match found with
  | Some b => translateAt src dst srcLen dstLen b x
  | None => x
  end.

(** Modelled from the spec: the absent mapper's translation of an offset
    from one side of the map to the other. *)
Definition translate (src dst srcLen dstLen : Breakpoint -> nat)
    (cm : list Breakpoint) (x : nat) : nat :=
  translateWith src dst srcLen dstLen (lastAtOrBefore src x cm None) x.

(** Modelled from the spec: [toPretty(rawOffset)] of the absent mapper. *)
Definition toPretty : list Breakpoint -> nat -> nat :=
  translate rawOffset prettyOffset rawLength prettyLength.

(** Modelled from the spec: [toRaw(prettyOffset)] of the absent mapper, the
    inverse: the same translation with the two sides exchanged. *)
Definition toRaw : list Breakpoint -> nat -> nat :=
  translate prettyOffset rawOffset prettyLength rawLength.

(** Modelled from the spec: an offset on a boundary of the absent mapper's
    map, that is, not strictly inside the range of a breakpoint. *)
Definition onBoundary (src srcLen : Breakpoint -> nat)
    (cm : list Breakpoint) (x : nat) : Prop :=
  Forall (fun b => ~ (src b < x < src b + srcLen b)) cm.

(** Modelled from the spec: a valid raw offset is one with an exact pretty
    counterpart, that is, on a boundary; an offset strictly inside a collapsed
    range has none and is snapped. *)
Definition validRawOffset : list Breakpoint -> nat -> Prop :=
  onBoundary rawOffset rawLength.

(** Modelled from the spec: a pretty offset with an exact raw counterpart in
    the absent mapper's map; the pretty offsets of the breakpoints are
    such. *)
Definition validPrettyOffset : list Breakpoint -> nat -> Prop :=
  onBoundary prettyOffset prettyLength.

(** The shape of a built map, read from either side: each breakpoint starts
    at or after the end of the one before it, as far after it on one side as
    on the other, and both of its lengths are positive. *)
Fixpoint chain (src dst srcLen dstLen : Breakpoint -> nat)
    (srcEnd dstEnd : nat) (cm : list Breakpoint) : Prop :=
  match cm with
  | [] => True
  | b :: cm' =>
      srcEnd <= src b /\ dst b = dstEnd + (src b - srcEnd)
      /\ 1 <= srcLen b /\ 1 <= dstLen b
      /\ chain src dst srcLen dstLen (src b + srcLen b) (dst b + dstLen b) cm'
  end.

(** Where the segment opened by the breakpoint found so far begins. *)
Definition segmentStart (pos len : Breakpoint -> nat)
    (found : option Breakpoint) : nat :=
  match found with
  | Some a => pos a + len a
  | None => 0
  end.

(** [x] lies at or after the breakpoint found so far, on a boundary of it. *)
Definition admissible (src srcLen dstLen : Breakpoint -> nat)
    (found : option Breakpoint) (x : nat) : Prop :=
  match found with
  | Some a =>
      src a <= x /\ 1 <= srcLen a /\ 1 <= dstLen a
      /\ ~ (src a < x < src a + srcLen a)
  | None => True
  end.

(** Three matches on a line: "->" at [2,4), a revealed one at [7,10), and
    another at [12,17), each drawn as one glyph. *)
Definition sample_matches : list Match :=
  [ {| m_start := 2; m_end := 4; glyphLength := 1; revealed := false |};
    {| m_start := 7; m_end := 10; glyphLength := 1; revealed := true |};
    {| m_start := 12; m_end := 17; glyphLength := 1; revealed := false |} ].

End CoordinateMapper.

(** ** Locating grammar files *)

(** A grammar contribution together with the install path of the extension
    that makes it: what [grammarLocator.getFilePath] flattens
    [vscode.extensions.all] into. *)
Record LocatedGrammar := {
  extensionPath : string;
  contribution : ExtensionGrammar;
}.

(** The contributions [getLanguageScopeName] sees in the same host. *)
Definition host_of (all : list LocatedGrammar) (c : Configuration)
    (docs : list TextDocument) : Host :=
  {| grammars := map contribution all; configuration := c;
     textDocuments := docs |}.

Section GrammarLocator.

(** Node's [path.join] on two strings. *)
Variable path_join : string -> string -> string.

(** [path.join(ext.extensionPath, ext.path)]: an [undefined] path makes
    [path.join] throw a TypeError. *)
Definition joinPath (ext : LocatedGrammar) : Result string :=
  match g_path (contribution ext) with
  | Some p => Ok (path_join (extensionPath ext) p)
  | None => Throw "TypeError"
  end.

(** [grammarLocator.getFilePath]: the [catch] turns a throw into
    [undefined]. *)
Definition getFilePath (all : list LocatedGrammar) (scopeName : string)
  : option string :=
  match List.filter
          (fun g => match g_scopeName (contribution g) with
                    | Some s => String.eqb s scopeName
                    | None => false
                    end)
          all with
  | ext :: _ =>
      match joinPath ext with
      | Ok file => Some file
      | Throw _ => None
      end
  | [] => None
  end.

End GrammarLocator.

(** ** Well-formed states *)

(** Every per-language policy field holds a value. *)
Definition defaultsFilled (language : LanguageEntry) : Prop :=
  is_Some (LanguageEntry.revealOn language)
  /\ is_Some (LanguageEntry.adjustCursorMovement language)
  /\ is_Some (LanguageEntry.prettyCursor language)
  /\ is_Some (LanguageEntry.combineIdenticalScopes language).

(** [language] is an entry a session for [doc] can be built from. *)
Definition entryFor (doc : TextDocument) (language : LanguageEntry) : Prop :=
  LanguageEntry.language language = languageId doc
  /\ languageId doc <> "plaintext" /\ languageId doc <> "jsonc"
  /\ LanguageEntry.substitutions language <> []
  /\ defaultsFilled language.

Definition sessionOk (kc : Uri * PrettyDocumentController) : Prop :=
  fst kc = uri (ctl_doc (snd kc))
  /\ entryFor (ctl_doc (snd kc)) (ctl_language (snd kc))
  /\ (ctl_textMateGrammar (snd kc) <> None ->
      usesScopes (ctl_language (snd kc)) = true).

Definition pendingOk (p : Pending) : Prop :=
  entryFor (p_doc p) (p_language p) /\ usesScopes (p_language p) = true.

Record stateOk (st : State) : Prop := {
  ok_settings : Forall defaultsFilled (Settings.substitutions (settings st));
  ok_sessions : Forall sessionOk (documents st);
  ok_pending : Forall pendingOk (pending st);
  ok_keys : NoDup (map fst (documents st));
  ok_handlers : NoDup (onEnabledChangeHandlers st);
  ok_additional : NoDup (map fst (additionalSubstitutions st));
}.

(** A session built by the reload that ends in settings [s], for one of the
    host's open documents. *)
Definition freshSession (h : Host) (s : Settings)
    (kc : Uri * PrettyDocumentController) : Prop :=
  In (ctl_doc (snd kc)) (textDocuments h)
  /\ fst kc = uri (ctl_doc (snd kc))
  /\ In (ctl_language (snd kc)) (Settings.substitutions s)
  /\ ctl_hideTextMethod (snd kc) = Settings.hideTextMethod s
  /\ ctl_textMateGrammar (snd kc) = None.

(** [doc] has a session, or one of the grammar loads parked since [old] is
    for it. *)
Definition servedSince (old : list Pending) (doc : TextDocument) (st : State)
  : Prop :=
  exists added,
    pending st = old ++ added
    /\ (is_Some (JsMap.get (uri doc) (documents st))
        \/ exists p, In p added /\ p_doc p = doc).

(** More sample data. *)
Definition python_doc : TextDocument :=
  {| uri := 3; languageId := "python" |}.

(** A haskell entry with a scoped rule that names its grammar scope. *)
Definition haskell_with_scope : LanguageEntry :=
  {| LanguageEntry.language := "haskell";
     LanguageEntry.substitutions := [scoped_arrow];
     LanguageEntry.revealOn := None;
     LanguageEntry.adjustCursorMovement := None;
     LanguageEntry.prettyCursor := None;
     LanguageEntry.combineIdenticalScopes := None;
     LanguageEntry.textMateInitialScope := Some "source.hs" |}.

Definition haskell_grammar : LocatedGrammar :=
  {| extensionPath := "/ext/haskell";
     contribution :=
       {| g_language := Some "haskell"; g_scopeName := Some "source.haskell";
          g_path := Some "syntaxes/haskell.json" |} |}.

(** ** Reasoning about computations *)

Ltac unfold_M :=
  unfold mbind, M_bind, bind, mret, M_ret, ret, gets, modify, try_catch in *.

Lemma with_effects_same st : with_effects (effects st) st = st.
Proof. by destruct st. Qed.

Lemma with_effects_twice e e' st :
  with_effects e (with_effects e' st) = with_effects e st.
Proof. done. Qed.

(** *** Runs of calls *)

Lemma forEach_call {A} throws (f : A -> Effect) (l : list A) st :
  forEach (fun x => call throws (f x)) l st
  = (with_effects
       (effects st ++ fst (callAll throws (map f l) (effects st))) st,
     snd (callAll throws (map f l) (effects st))).
Proof.
  revert st. induction l as [|x l IH]; intros st; simpl.
  - by rewrite app_nil_r, with_effects_same.
  - unfold_M. unfold call at 1.
    destruct (throws (effects st) (f x)) as [err|]; [done|].
    rewrite IH. simpl. by rewrite with_effects_twice, <- app_assoc.
Qed.

(** When none of the calls throws, all are made and the run returns. *)
Lemma callAll_returns throws es log :
  (forall log' e, In e es -> throws log' e = None) ->
  callAll throws es log = (es, Ok tt).
Proof.
  revert log. induction es as [|e es IH]; intros log Hno; simpl; [done|].
  rewrite (Hno log e) by by left.
  rewrite IH; [done|]. intros log' e' He'. apply Hno. by right.
Qed.

(** A run that returns has made all its calls. *)
Lemma callAll_ok throws es log u :
  snd (callAll throws es log) = Ok u -> fst (callAll throws es log) = es.
Proof.
  revert log. induction es as [|e es IH]; intros log; simpl; [done|].
  destruct (throws log e); simpl; [done|]. intros H. by rewrite (IH _ H).
Qed.

(** A run that throws has made the calls up to the one that threw, and
    none after it. *)
Lemma callAll_throw throws es log err :
  snd (callAll throws es log) = Throw err ->
  exists before e after,
    es = before ++ e :: after
    /\ fst (callAll throws es log) = before ++ [e]
    /\ throws (log ++ before) e = Some err.
Proof.
  revert log. induction es as [|e es IH]; intros log; simpl; [done|].
  destruct (throws log e) as [err'|] eqn:E; simpl.
  - intros [= ->]. exists [], e, es. by rewrite app_nil_r.
  - intros H. destruct (IH _ H) as (before & e' & after & -> & Hf & Ht).
    exists (e :: before), e', after. rewrite Hf.
    by rewrite <- app_assoc in Ht.
Qed.

(** The calls made are the first of the calls to make. *)
Lemma callAll_prefix throws es log :
  exists rest, es = fst (callAll throws es log) ++ rest.
Proof.
  revert log. induction es as [|e es IH]; intros log; simpl; [by exists []|].
  destruct (throws log e); simpl.
  - by exists es.
  - destruct (IH (log ++ [e])) as (rest & Hrest). exists rest. by f_equal.
Qed.

Lemma callAll_Forall (P : Effect -> Prop) throws es log :
  Forall P es -> Forall P (fst (callAll throws es log)).
Proof.
  intros H. destruct (callAll_prefix throws es log) as (rest & Hrest).
  rewrite Hrest in H. by apply Forall_app in H as [H _].
Qed.

Lemma callAll_incl throws es log e :
  In e (fst (callAll throws es log)) -> In e es.
Proof.
  intros H. destruct (callAll_prefix throws es log) as (rest & Hrest).
  rewrite Hrest. apply in_or_app. by left.
Qed.

Lemma callAll_NoDup throws es log :
  NoDup es -> NoDup (fst (callAll throws es log)).
Proof.
  intros H. destruct (callAll_prefix throws es log) as (rest & Hrest).
  rewrite Hrest in H. by apply NoDup_app in H as [H _].
Qed.

Lemma disposals_values (m : JsMap.t PrettyDocumentController) :
  map Dispose (JsMap.values m) = disposals m.
Proof. unfold JsMap.values, disposals. by rewrite map_map. Qed.

(** *** The functions, case by case *)

Lemma unloadDocuments_eq throws st :
  unloadDocuments throws st =
  let r := callAll throws (disposals (documents st)) (effects st) in
  let st' := with_effects (effects st ++ fst r) st in
  match snd r with
  | Ok _ => (with_documents [] st', Ok tt)
  | Throw err => (st', Throw err)
  end.
Proof.
  unfold unloadDocuments. unfold_M. rewrite forEach_call, disposals_values.
  simpl. by destruct (snd (callAll _ _ _)).
Qed.

Lemma notifyEnabledChange_eq throws b st :
  notifyEnabledChange throws b st =
  let r := callAll throws
             (map (fun o => Notify o b) (onEnabledChangeHandlers st))
             (effects st) in
  (with_effects (effects st ++ fst r) st, snd r).
Proof. unfold notifyEnabledChange. unfold_M. by rewrite forEach_call. Qed.

Lemma createController_eq throws doc language grammar st :
  createController throws doc language grammar st =
  let c := newController st doc language grammar in
  let st' := with_effects (effects st ++ [NewController c]) st in
  match throws (effects st) (NewController c) with
  | Some err => (st', Throw err)
  | None => (with_documents (JsMap.set (uri doc) c (documents st)) st', Ok tt)
  end.
Proof.
  unfold createController, call. unfold_M. simpl.
  by destruct (throws (effects st) _).
Qed.

Lemma openDocument_eq throws h doc st :
  openDocument throws h doc st =
  if negb (prettySymbolsEnabled st) then (st, Ok tt)
  else
    match JsMap.get (uri doc) (documents st) with
    | Some c => (with_effects (effects st ++ [Refresh c]) st, Ok tt)
    | None =>
        match getLanguageEntry st doc with
        | Some language =>
            if Nat.ltb 0 (length (LanguageEntry.substitutions language)) then
              if bool_decide (textMateRegistry st ≠ None)
                 && usesScopes language
              then
                (with_pending
                   (pending st ++
                      [{| p_doc := doc; p_language := language;
                          p_scopeName :=
                            js_or (LanguageEntry.textMateInitialScope language)
                              (getLanguageScopeName h (languageId doc)) |}])
                   st, Ok tt)
              else
                let c := newController st doc language None in
                let st' := with_effects (effects st ++ [NewController c]) st in
                match throws (effects st) (NewController c) with
                | Some _ => (st', Ok tt)
                | None =>
                    (with_documents (JsMap.set (uri doc) c (documents st)) st',
                     Ok tt)
                end
            else (st, Ok tt)
        | None => (st, Ok tt)
        end
    end.
Proof.
  unfold openDocument, await, usesScopes.
  unfold mbind, M_bind, bind, mret, M_ret, ret, gets, try_catch.
  destruct (prettySymbolsEnabled st); simpl; [|done].
  destruct (JsMap.get (uri doc) (documents st)) as [c|]; simpl.
  - unfold call. by destruct (throws (effects st) (Refresh c)).
  - destruct (getLanguageEntry st doc) as [language|]; simpl; [|done].
    destruct (Nat.ltb 0 _); simpl; [|done].
    destruct (bool_decide (textMateRegistry st ≠ None) && _); [done|].
    rewrite createController_eq. simpl. by destruct (throws (effects st) _).
Qed.

Lemma resumeOpen_eq throws p r st :
  resumeOpen throws p r st =
  let st0 :=
    match r with
    | Resolved _ => st
    | Rejected err => with_effects (effects st ++ [ConsoleError err]) st
    end in
  let c :=
    newController st (p_doc p) (p_language p)
      match r with Resolved g => Some g | Rejected _ => None end in
  let st1 := with_effects (effects st0 ++ [NewController c]) st0 in
  match throws (effects st0) (NewController c) with
  | Some _ => (st1, Ok tt)
  | None =>
      (with_documents (JsMap.set (uri (p_doc p)) c (documents st)) st1, Ok tt)
  end.
Proof.
  unfold resumeOpen, emit.
  unfold mbind, M_bind, bind, mret, M_ret, ret, gets, modify, try_catch.
  destruct r as [g|err]; rewrite createController_eq; simpl;
    by destruct (throws _ _).
Qed.

Lemma closeDocument_eq throws doc st :
  closeDocument throws doc st =
  match JsMap.get (uri doc) (documents st) with
  | Some c =>
      let st' := with_effects (effects st ++ [Dispose c]) st in
      match throws (effects st) (Dispose c) with
      | Some err => (st', Throw err)
      | None =>
          (with_documents (JsMap.delete (uri doc) (documents st)) st', Ok tt)
      end
  | None => (st, Ok tt)
  end.
Proof.
  unfold closeDocument, call. unfold_M.
  destruct (JsMap.get (uri doc) (documents st)) as [c|]; [|done].
  simpl. by destruct (throws (effects st) (Dispose c)).
Qed.

(** ** Language-entry resolution *)

Lemma find_first_match {A} (f : A -> bool) (l : list A) :
  match List.find f l with
  | Some x =>
      exists before after,
        l = before ++ x :: after /\ f x = true
        /\ Forall (fun y => f y = false) before
  | None => Forall (fun y => f y = false) l
  end.
Proof.
  induction l as [|a l IH]; simpl; [constructor|].
  destruct (f a) eqn:Hfa.
  - exists [], l. by repeat split.
  - destruct (List.find f l) as [x|].
    + destruct IH as (before & after & -> & Hx & Hb).
      exists (a :: before), after. repeat split; [done|]. by constructor.
    + by constructor.
Qed.

Lemma getLanguageEntry_excluded st doc :
  languageId doc = "plaintext" \/ languageId doc = "jsonc" ->
  getLanguageEntry st doc = None.
Proof. unfold getLanguageEntry. by intros [-> | ->]. Qed.

Lemma getLanguageEntry_find st doc :
  languageId doc <> "plaintext" -> languageId doc <> "jsonc" ->
  getLanguageEntry st doc
  = List.find
      (fun entry => String.eqb (LanguageEntry.language entry) (languageId doc))
      (Settings.substitutions (settings st)).
Proof.
  intros H1 H2. unfold getLanguageEntry.
  apply String.eqb_neq in H1, H2. by rewrite H1, H2.
Qed.

(** C2, as stated, fails: a configured "plaintext" entry is the first (and
    exact) match for a plaintext document, yet resolution returns
    [undefined]. *)
Lemma C2_first_match_fails_for_plaintext :
  ~ (forall st doc,
       getLanguageEntry st doc
       = List.find
           (fun entry =>
              String.eqb (LanguageEntry.language entry) (languageId doc))
           (Settings.substitutions (settings st))).
Proof.
  intros H.
  specialize
    (H (with_settings
          (loadSettings (config_with [entry_for "plaintext" [arrow]]))
          moduleState)
       plain_doc).
  vm_compute in H. discriminate H.
Qed.

(** C2, amended: for a document whose languageId is neither "plaintext" nor
    "jsonc", resolution returns the first entry of the configured list whose
    language equals the languageId (every entry before it has another
    language), and [undefined] when no entry has that language; for the two
    excluded ids it returns [undefined]. *)
Theorem C2_getLanguageEntry_first_exact_match st doc :
  (languageId doc <> "plaintext" -> languageId doc <> "jsonc" ->
   match getLanguageEntry st doc with
   | Some entry =>
       exists before after,
         Settings.substitutions (settings st) = before ++ entry :: after
         /\ LanguageEntry.language entry = languageId doc
         /\ Forall (fun e => LanguageEntry.language e <> languageId doc) before
   | None =>
       Forall (fun e => LanguageEntry.language e <> languageId doc)
         (Settings.substitutions (settings st))
   end)
  /\ (languageId doc = "plaintext" \/ languageId doc = "jsonc" ->
      getLanguageEntry st doc = None).
Proof.
  split; [|apply getLanguageEntry_excluded].
  intros H1 H2. rewrite getLanguageEntry_find by done.
  pose proof
    (find_first_match
       (fun entry =>
          String.eqb (LanguageEntry.language entry) (languageId doc))
       (Settings.substitutions (settings st))) as Hf.
  destruct (List.find _ _) as [entry|].
  - destruct Hf as (before & after & Heq & Hx & Hb).
    exists before, after. repeat split; [done|by apply String.eqb_eq|].
    eapply Forall_impl; [exact Hb|]. intros e He. by apply String.eqb_neq.
  - eapply Forall_impl; [exact Hf|]. intros e He. by apply String.eqb_neq.
Qed.

Lemma C2_witness :
  let entries := [entry_for "python" []; entry_for "haskell" [arrow];
                  entry_for "haskell" [scoped_arrow]] in
  let st := exec (activate never_throws (host_with entries [])) moduleState in
  (languageId haskell_doc <> "plaintext" /\ languageId haskell_doc <> "jsonc")
  /\ match getLanguageEntry st haskell_doc with
     | Some entry =>
         exists before after,
           Settings.substitutions (settings st) = before ++ entry :: after
           /\ LanguageEntry.language entry = languageId haskell_doc
           /\ Forall
                (fun e => LanguageEntry.language e <> languageId haskell_doc)
                before
     | None =>
         Forall (fun e => LanguageEntry.language e <> languageId haskell_doc)
           (Settings.substitutions (settings st))
     end.
Proof.
  intros entries st.
  assert (H1 : languageId haskell_doc <> "plaintext") by done.
  assert (H2 : languageId haskell_doc <> "jsonc") by done.
  split; [done|].
  exact (proj1 (C2_getLanguageEntry_first_exact_match st haskell_doc) H1 H2).
Defined.

(** ** What [openDocument] and [reloadConfiguration] leave alone *)

Lemma frame_refl st : frame st st.
Proof. split; try done. exists []. by rewrite app_nil_r. Qed.

Lemma frame_trans st1 st2 st3 : frame st1 st2 -> frame st2 st3 -> frame st1 st3.
Proof.
  intros [E1 S1 H1 A1 R1 (m1 & L1 & F1)] [E2 S2 H2 A2 R2 (m2 & L2 & F2)].
  split; try congruence.
  exists (m1 ++ m2). split; [by rewrite L2, L1, app_assoc|].
  by apply Forall_app.
Qed.

Lemma frame_calls st more :
  Forall (fun e => isNotify e = false) more ->
  frame st (with_effects (effects st ++ more) st).
Proof. intros H. split; try done. by exists more. Qed.

Lemma frame_documents st st' d :
  frame st st' -> frame st (with_documents d st').
Proof. by intros [? ? ? ? ? ?]. Qed.

Lemma frame_pending st st' p :
  frame st st' -> frame st (with_pending p st').
Proof. by intros [? ? ? ? ? ?]. Qed.

Lemma openDocument_frame throws h doc st :
  frame st (exec (openDocument throws h doc) st)
  /\ snd (openDocument throws h doc st) = Ok tt.
Proof.
  unfold exec. rewrite openDocument_eq. cbv zeta.
  repeat case_match; simpl; (split; [|reflexivity]);
    try apply frame_refl;
    try apply frame_documents; try apply frame_pending;
    try apply frame_refl; apply frame_calls; by repeat constructor.
Qed.

Lemma forEach_openDocument_frame throws h docs st :
  frame st (exec (forEach (openDocument throws h) docs) st)
  /\ snd (forEach (openDocument throws h) docs st) = Ok tt.
Proof.
  revert st. induction docs as [|doc docs IH]; intros st; simpl.
  - split; [apply frame_refl|done].
  - unfold exec in *. unfold_M.
    destruct (openDocument_frame throws h doc st) as [Hf Hok].
    unfold exec in Hf.
    destruct (openDocument throws h doc st) as [st1 r]; simpl in *. subst r.
    destruct (IH st1) as [Hf' Hok']. split; [|done].
    by eapply frame_trans.
Qed.

Lemma resumeOpen_frame throws p r st :
  frame st (exec (resumeOpen throws p r) st)
  /\ snd (resumeOpen throws p r st) = Ok tt.
Proof.
  unfold exec. rewrite resumeOpen_eq. simpl.
  assert (Hf : frame st
            (with_effects
               (effects st
                ++ match r with
                   | Resolved _ => []
                   | Rejected err => [ConsoleError err]
                   end
                ++ [NewController
                      (newController st (p_doc p) (p_language p)
                         match r with
                         | Resolved g => Some g
                         | Rejected _ => None
                         end)]) st)).
  { apply frame_calls. destruct r; by repeat constructor. }
  destruct r as [g|err]; simpl in *; rewrite <- ?app_assoc;
    destruct (throws _ _); simpl; (split; [|done]);
    try apply frame_documents; exact Hf.
Qed.

Lemma disposals_not_notify (m : JsMap.t PrettyDocumentController) :
  Forall (fun e => isNotify e = false) (disposals m).
Proof.
  apply Forall_forall. intros e He.
  apply list_elem_of_fmap in He as (c & -> & _). done.
Qed.

Lemma unloadDocuments_frame throws st :
  frame st (exec (unloadDocuments throws) st).
Proof.
  unfold exec. rewrite unloadDocuments_eq. simpl.
  assert (Hf : frame st
            (with_effects
               (effects st
                ++ fst (callAll throws (disposals (documents st)) (effects st)))
               st)).
  { apply frame_calls, callAll_Forall, disposals_not_notify. }
  destruct (snd (callAll _ _ _)); simpl; [by apply frame_documents|done].
Qed.

Lemma rebuildRegistry_eq throws st :
  try_catch
    (call throws NewRegistry;; modify (with_registry (Some RegistryOver)))
    (fun err => modify (with_registry None);; emit (ConsoleError err)) st
  = (afterRegistry throws st, Ok tt).
Proof.
  unfold afterRegistry, call, emit. unfold_M.
  destruct (throws (effects st) NewRegistry); simpl; [|done].
  f_equal. unfold with_effects, with_registry. simpl. by rewrite <- app_assoc.
Qed.

(** [reloadConfiguration] re-opens the documents when the unloading
    returned; when a [dispose] threw, the reload ends there. *)
Lemma reloadConfiguration_eq throws h st :
  reloadConfiguration throws h st
  = match reloadUnloads throws h st with
    | Ok _ =>
        forEach (openDocument throws h) (textDocuments h)
          (reloadBase throws h st)
    | Throw err => (reloadBase throws h st, Throw err)
    end.
Proof.
  pose proof (rebuildRegistry_eq throws st) as Hreg.
  unfold reloadConfiguration, reloadUnloads, reloadBase, reloadPrefix, exec.
  unfold_M. rewrite Hreg. simpl.
  by destruct (unloadDocuments throws _) as [s [[]|err]].
Qed.

Lemma reloadPrefix_fields throws h st :
  prettySymbolsEnabled (reloadPrefix throws h st) = prettySymbolsEnabled st
  /\ documents (reloadPrefix throws h st) = documents st
  /\ pending (reloadPrefix throws h st) = pending st
  /\ onEnabledChangeHandlers (reloadPrefix throws h st)
     = onEnabledChangeHandlers st
  /\ additionalSubstitutions (reloadPrefix throws h st)
     = additionalSubstitutions st
  /\ settings (reloadPrefix throws h st) = loadSettings (configuration h)
  /\ exists more,
       effects (reloadPrefix throws h st) = effects st ++ more
       /\ Forall (fun e => isNotify e = false) more.
Proof.
  unfold reloadPrefix, afterRegistry.
  destruct (throws (effects st) NewRegistry); simpl; repeat split;
    eexists; (split; [done|]); by repeat constructor.
Qed.

Lemma reloadBase_frame throws h st :
  prettySymbolsEnabled (reloadBase throws h st) = prettySymbolsEnabled st
  /\ onEnabledChangeHandlers (reloadBase throws h st)
     = onEnabledChangeHandlers st
  /\ additionalSubstitutions (reloadBase throws h st)
     = additionalSubstitutions st
  /\ exists more,
       effects (reloadBase throws h st) = effects st ++ more
       /\ Forall (fun e => isNotify e = false) more.
Proof.
  destruct (reloadPrefix_fields throws h st)
    as (He & _ & _ & Hh & Ha & _ & m1 & Hm1 & F1).
  destruct (unloadDocuments_frame throws (reloadPrefix throws h st))
    as [E S H A R (m2 & Hm2 & F2)].
  fold (reloadBase throws h st) in *.
  repeat split; try congruence.
  exists (m1 ++ m2). split; [by rewrite Hm2, Hm1, app_assoc|].
  by apply Forall_app.
Qed.

Lemma reloadBase_settings throws h st :
  settings (reloadBase throws h st) = loadSettings (configuration h).
Proof.
  destruct (reloadPrefix_fields throws h st) as (_ & _ & _ & _ & _ & Hs & _).
  destruct (unloadDocuments_frame throws (reloadPrefix throws h st))
    as [_ S _ _ _ _].
  fold (reloadBase throws h st) in S. congruence.
Qed.

(** Whether or not the unloading returned, what [reloadConfiguration] does
    after it changes only the sessions, the parked loads and the log. *)
Lemma reloadConfiguration_frame throws h st :
  frame (reloadBase throws h st) (exec (reloadConfiguration throws h) st).
Proof.
  unfold exec. rewrite reloadConfiguration_eq.
  destruct (reloadUnloads throws h st); [|apply frame_refl].
  apply forEach_openDocument_frame.
Qed.

Lemma reloadConfiguration_settings throws h st :
  settings (exec (reloadConfiguration throws h) st)
  = loadSettings (configuration h).
Proof.
  rewrite (frame_settings _ _ (reloadConfiguration_frame throws h st)).
  apply reloadBase_settings.
Qed.

(** ** Defaults of the per-language fields *)

(** C4: after [reloadConfiguration], the loaded entries are the configured
    entries, one for one and in order; each of [revealOn],
    [adjustCursorMovement], [prettyCursor] that was unset holds the global
    configured default, an unset [combineIdenticalScopes] holds [false], and
    every field that was set (and [language], [substitutions],
    [textMateInitialScope]) is unchanged. *)
Theorem C4_reloadConfiguration_applies_defaults throws h st :
  let c := configuration h in
  let configured := Configuration.get (Configuration.substitutions c) [] in
  let s := settings (exec (reloadConfiguration throws h) st) in
  Settings.revealOn s = Configuration.get (Configuration.revealOn c) "cursor"
  /\ Settings.adjustCursorMovement s
     = Configuration.get (Configuration.adjustCursorMovement c) false
  /\ Settings.prettyCursor s
     = Configuration.get (Configuration.prettyCursor c) "boxed"
  /\ length (Settings.substitutions s) = length configured
  /\ forall i entry,
       configured !! i = Some entry ->
       exists loaded,
         Settings.substitutions s !! i = Some loaded
         /\ LanguageEntry.revealOn loaded
            = Some (default (Settings.revealOn s)
                      (LanguageEntry.revealOn entry))
         /\ LanguageEntry.adjustCursorMovement loaded
            = Some (default (Settings.adjustCursorMovement s)
                      (LanguageEntry.adjustCursorMovement entry))
         /\ LanguageEntry.prettyCursor loaded
            = Some (default (Settings.prettyCursor s)
                      (LanguageEntry.prettyCursor entry))
         /\ LanguageEntry.combineIdenticalScopes loaded
            = Some (default false (LanguageEntry.combineIdenticalScopes entry))
         /\ LanguageEntry.language loaded = LanguageEntry.language entry
         /\ LanguageEntry.substitutions loaded
            = LanguageEntry.substitutions entry
         /\ LanguageEntry.textMateInitialScope loaded
            = LanguageEntry.textMateInitialScope entry.
Proof.
  intros c configured s. subst s. rewrite reloadConfiguration_settings.
  fold c. unfold loadSettings. simpl. fold configured.
  repeat split; [by rewrite length_map|].
  intros i entry Hi. eexists. split.
  - rewrite list_lookup_fmap, Hi. reflexivity.
  - simpl. repeat split.
    + by destruct (LanguageEntry.revealOn entry).
    + by destruct (LanguageEntry.adjustCursorMovement entry).
    + by destruct (LanguageEntry.prettyCursor entry).
    + by destruct (LanguageEntry.combineIdenticalScopes entry).
Qed.

Lemma C4_witness :
  let entry := entry_for "haskell" [arrow] in
  let h := host_with [entry] [] in
  let s := settings (exec (reloadConfiguration never_throws h) moduleState) in
  Configuration.get (Configuration.substitutions (configuration h)) [] !! 0
  = Some entry
  /\ exists loaded,
       Settings.substitutions s !! 0 = Some loaded
       /\ LanguageEntry.revealOn loaded = Some "cursor"
       /\ LanguageEntry.combineIdenticalScopes loaded = Some false.
Proof.
  intros entry h s.
  assert (H0 : Configuration.get
                 (Configuration.substitutions (configuration h)) [] !! 0
               = Some entry) by reflexivity.
  split; [exact H0|].
  destruct (proj2 (proj2 (proj2 (proj2
              (C4_reloadConfiguration_applies_defaults never_throws h
                 moduleState)))) 0 entry H0)
    as (loaded & Hl & Hr & _ & _ & Hc & _).
  exists loaded. split; [exact Hl|]. split; [exact Hr|exact Hc].
Defined.

(** C10: for a document whose languageId is "plaintext" or "jsonc",
    [getLanguageEntry] returns [undefined] whatever the configured
    substitutions are, and [openDocument] neither stores a session for it nor
    parks a grammar load that would store one later. *)
Theorem C10_plaintext_and_jsonc_never_get_a_session throws h st doc :
  languageId doc = "plaintext" \/ languageId doc = "jsonc" ->
  getLanguageEntry st doc = None
  /\ documents (exec (openDocument throws h doc) st) = documents st
  /\ pending (exec (openDocument throws h doc) st) = pending st.
Proof.
  intros Hlang. pose proof (getLanguageEntry_excluded st doc Hlang) as Hnone.
  split; [done|]. unfold exec. rewrite openDocument_eq, Hnone.
  by repeat case_match.
Qed.

Lemma C10_witness :
  (languageId plain_doc = "plaintext" \/ languageId plain_doc = "jsonc")
  /\ let st := exec (activate never_throws
                       (host_with [entry_for "plaintext" [arrow]] []))
                 moduleState in
     getLanguageEntry st plain_doc = None
     /\ documents
          (exec (openDocument never_throws
                   (host_with [entry_for "plaintext" [arrow]] []) plain_doc)
             st)
        = documents st
     /\ pending
          (exec (openDocument never_throws
                   (host_with [entry_for "plaintext" [arrow]] []) plain_doc)
             st)
        = pending st.
Proof.
  split; [by left|].
  apply (C10_plaintext_and_jsonc_never_get_a_session never_throws).
  by left.
Defined.

(** ** Faults in a controller stay inside the handler *)

(** What a handler that forwards one call to the document's controller
    does: nothing without a session, the call when it returns, and the call
    followed by the handler's [catch] when it throws. *)
Lemma forward_to_controller throws (e : PrettyDocumentController -> Effect)
    (onError : Error -> M unit) (k : Uri) st :
  try_catch
    (prettyDoc ← gets (fun st => JsMap.get k (documents st));
     match prettyDoc with
     | Some c => call throws (e c)
     | None => mret tt
     end)
    onError st
  = match JsMap.get k (documents st) with
    | Some c =>
        let st' := with_effects (effects st ++ [e c]) st in
        match throws (effects st) (e c) with
        | Some err => onError err st'
        | None => (st', Ok tt)
        end
    | None => (st, Ok tt)
    end.
Proof.
  unfold call. unfold_M.
  destruct (JsMap.get k (documents st)) as [c|]; [|done].
  by destruct (throws (effects st) (e c)).
Qed.

Lemma selectionChanged_eq throws event st :
  selectionChanged throws event st
  = match JsMap.get (uri (document (textEditor event))) (documents st) with
    | Some c =>
        let e := SelectionChanged c (textEditor event) in
        match throws (effects st) e with
        | Some err =>
            (with_effects (effects st ++ [e; ConsoleError err]) st, Ok tt)
        | None => (with_effects (effects st ++ [e]) st, Ok tt)
        end
    | None => (st, Ok tt)
    end.
Proof.
  unfold selectionChanged. rewrite forward_to_controller.
  repeat case_match; try done.
  unfold emit. unfold_M. simpl. by rewrite with_effects_twice, <- app_assoc.
Qed.

Lemma copyWithSubstitutions_eq throws editor st :
  copyWithSubstitutions throws editor st
  = match editor with
    | Some editor =>
        match JsMap.get (uri (document editor)) (documents st) with
        | Some c =>
            (with_effects (effects st ++ [CopyDecorated c editor]) st, Ok tt)
        | None => (st, Ok tt)
        end
    | None => (st, Ok tt)
    end.
Proof.
  unfold copyWithSubstitutions. destruct editor as [editor|]; [|done].
  rewrite forward_to_controller. by repeat case_match.
Qed.

Lemma changeActiveTextEditor_eq throws editor st :
  changeActiveTextEditor throws editor st
  = match editor with
    | Some editor =>
        match JsMap.get (uri (document editor)) (documents st) with
        | Some c =>
            (with_effects (effects st ++ [GotFocus c editor]) st, Ok tt)
        | None => (st, Ok tt)
        end
    | None => (st, Ok tt)
    end.
Proof.
  unfold changeActiveTextEditor. destruct editor as [editor|]; [|done].
  rewrite forward_to_controller. by repeat case_match.
Qed.

(** C6: whatever the controller does (return or throw, as [throws] decides),
    the selection-changed, copy-with-substitutions and active-editor-changed
    handlers return normally to their caller, and the only trace they leave
    is in the call log: the document map, and with it every other
    document's session, is as before. *)
Theorem C6_handlers_contain_controller_faults throws st event editor :
  (exists log,
     selectionChanged throws event st
     = (with_effects (effects st ++ log) st, Ok tt))
  /\ (exists log,
        copyWithSubstitutions throws editor st
        = (with_effects (effects st ++ log) st, Ok tt))
  /\ (exists log,
        changeActiveTextEditor throws editor st
        = (with_effects (effects st ++ log) st, Ok tt)).
Proof.
  assert (Hnil : (st, Ok tt) = (with_effects (effects st ++ []) st, Ok tt)).
  { by rewrite app_nil_r, with_effects_same. }
  rewrite selectionChanged_eq, copyWithSubstitutions_eq,
    changeActiveTextEditor_eq.
  repeat split; repeat (case_match; simpl); by eauto.
Qed.

Example selectionChanged_catches :
  let st := with_documents [(1, haskell_session)] moduleState in
  let editor := {| document := haskell_doc |} in
  selectionChanged always_throws {| textEditor := editor |} st
  = (with_effects
       [SelectionChanged haskell_session editor; ConsoleError "TypeError"] st,
     Ok tt).
Proof. reflexivity. Qed.

(** ** Observers of the enabled flag *)

Lemma JsSet_delete_not_in (x : Handler) (s : JsSet.t Handler) :
  ~ In x (JsSet.delete id x s).
Proof.
  induction s as [|y s IH]; simpl; [tauto|].
  destruct (Nat.eqb y x) eqn:E; [exact IH|].
  apply Nat.eqb_neq in E. simpl. tauto.
Qed.

(** A run in which the calls before [e] return and [e] throws stops at
    [e]. *)
Lemma callAll_first_throw throws before e after log err :
  (forall log' e', In e' before -> throws log' e' = None) ->
  throws (log ++ before) e = Some err ->
  callAll throws (before ++ e :: after) log = (before ++ [e], Throw err).
Proof.
  revert log. induction before as [|b before IH]; intros log Hno He; simpl.
  - rewrite app_nil_r in He. by rewrite He.
  - rewrite (Hno log b) by by left.
    rewrite (IH (log ++ [b])); [done| |by rewrite <- app_assoc].
    intros log' e' He'. apply Hno. by right.
Qed.

(** A disable, a deactivation and an enable, by how the run of the
    observers ends. *)
Lemma disablePrettySymbols_eq throws st :
  disablePrettySymbols throws st =
  let n := callAll throws
             (map (fun o => Notify o false) (onEnabledChangeHandlers st))
             (effects st) in
  let st' := with_effects (effects st ++ fst n) (with_enabled false st) in
  match snd n with
  | Ok _ => unloadDocuments throws st'
  | Throw err => (st', Throw err)
  end.
Proof.
  unfold disablePrettySymbols. unfold_M.
  rewrite notifyEnabledChange_eq. simpl.
  by destruct (snd (callAll _ _ _)).
Qed.

Lemma deactivate_eq throws st :
  deactivate throws st =
  let n := callAll throws
             (map (fun o => Notify o false) (onEnabledChangeHandlers st))
             (effects st) in
  let st' := with_effects (effects st ++ fst n) st in
  match snd n with
  | Ok _ => unloadDocuments throws st'
  | Throw err => (st', Throw err)
  end.
Proof.
  unfold deactivate. unfold_M.
  rewrite notifyEnabledChange_eq. simpl.
  by destruct (snd (callAll _ _ _)).
Qed.

Lemma enablePrettySymbols_eq throws h st :
  enablePrettySymbols throws h st =
  let n := callAll throws
             (map (fun o => Notify o true) (onEnabledChangeHandlers st))
             (effects st) in
  let st' := with_effects (effects st ++ fst n) (with_enabled true st) in
  match snd n with
  | Ok _ => reloadConfiguration throws h st'
  | Throw err => (st', Throw err)
  end.
Proof.
  unfold enablePrettySymbols. unfold_M.
  rewrite notifyEnabledChange_eq. simpl.
  by destruct (snd (callAll _ _ _)).
Qed.

(** When the observers and [dispose] return, a disable and a deactivation
    run to their end. *)
Lemma notify_returns throws b (hs : list Handler) log :
  (forall log' o, In o hs -> throws log' (Notify o b) = None) ->
  callAll throws (map (fun o => Notify o b) hs) log
  = (map (fun o => Notify o b) hs, Ok tt).
Proof.
  intros H. apply callAll_returns. intros log' e He.
  apply in_map_iff in He as (o & <- & Ho). by apply H.
Qed.

Lemma disposals_return throws (m : JsMap.t PrettyDocumentController) log :
  (forall log' k c, In (k, c) m -> throws log' (Dispose c) = None) ->
  callAll throws (disposals m) log = (disposals m, Ok tt).
Proof.
  intros H. apply callAll_returns. intros log' e He.
  apply in_map_iff in He as ([k c] & <- & Hkc). by apply (H log' k c).
Qed.

Lemma unloadDocuments_returns throws st :
  (forall log k c, In (k, c) (documents st) -> throws log (Dispose c) = None) ->
  unloadDocuments throws st
  = (with_documents []
       (with_effects (effects st ++ disposals (documents st)) st), Ok tt).
Proof.
  intros H. rewrite unloadDocuments_eq. simpl.
  by rewrite disposals_return.
Qed.

(** The calls a disable, a deactivation or an enable adds to the log: calls
    on the first of the registered observers, in their order, and after them
    no call on an observer. *)
Lemma disablePrettySymbols_effects throws st :
  exists called rest more,
    map (fun o => Notify o false) (onEnabledChangeHandlers st) = called ++ rest
    /\ effects (exec (disablePrettySymbols throws) st)
       = effects st ++ called ++ more
    /\ Forall (fun e => isNotify e = false) more.
Proof.
  unfold exec. rewrite disablePrettySymbols_eq. cbv zeta.
  destruct (callAll_prefix throws
              (map (fun o => Notify o false) (onEnabledChangeHandlers st))
              (effects st)) as (rest & Hrest).
  destruct (snd (callAll _ _ _)).
  - match goal with
    | |- context [unloadDocuments throws ?s] =>
        destruct (unloadDocuments_frame throws s) as [_ _ _ _ _ (m & Hm & F)]
    end.
    unfold exec in Hm. simpl in Hm.
    eexists _, rest, m. split; [exact Hrest|]. split; [|exact F].
    by rewrite Hm, <- app_assoc.
  - eexists _, rest, []. split; [exact Hrest|]. split; [|constructor].
    simpl. by rewrite app_nil_r.
Qed.

Lemma deactivate_effects throws st :
  exists called rest more,
    map (fun o => Notify o false) (onEnabledChangeHandlers st) = called ++ rest
    /\ effects (exec (deactivate throws) st) = effects st ++ called ++ more
    /\ Forall (fun e => isNotify e = false) more.
Proof.
  unfold exec. rewrite deactivate_eq. cbv zeta.
  destruct (callAll_prefix throws
              (map (fun o => Notify o false) (onEnabledChangeHandlers st))
              (effects st)) as (rest & Hrest).
  destruct (snd (callAll _ _ _)).
  - match goal with
    | |- context [unloadDocuments throws ?s] =>
        destruct (unloadDocuments_frame throws s) as [_ _ _ _ _ (m & Hm & F)]
    end.
    unfold exec in Hm. simpl in Hm.
    eexists _, rest, m. split; [exact Hrest|]. split; [|exact F].
    by rewrite Hm, <- app_assoc.
  - eexists _, rest, []. split; [exact Hrest|]. split; [|constructor].
    simpl. by rewrite app_nil_r.
Qed.

Lemma enablePrettySymbols_effects throws h st :
  exists called rest more,
    map (fun o => Notify o true) (onEnabledChangeHandlers st) = called ++ rest
    /\ effects (exec (enablePrettySymbols throws h) st)
       = effects st ++ called ++ more
    /\ Forall (fun e => isNotify e = false) more
    /\ ((forall log o,
           In o (onEnabledChangeHandlers st) ->
           throws log (Notify o true) = None) ->
        rest = []).
Proof.
  unfold exec. rewrite enablePrettySymbols_eq. cbv zeta.
  pose proof (notify_returns throws true (onEnabledChangeHandlers st)
                (effects st)) as Hret.
  destruct (callAll_prefix throws
              (map (fun o => Notify o true) (onEnabledChangeHandlers st))
              (effects st)) as (rest & Hrest).
  assert (Hall : (forall log o,
                    In o (onEnabledChangeHandlers st) ->
                    throws log (Notify o true) = None) ->
                 rest = []).
  { intros H. rewrite (Hret H) in Hrest. simpl in Hrest.
    apply (f_equal length) in Hrest. rewrite length_app in Hrest.
    destruct rest; [done|]. simpl in Hrest. lia. }
  destruct (snd (callAll _ _ _)).
  - match goal with
    | |- context [reloadConfiguration throws h ?s] =>
        pose proof (reloadConfiguration_frame throws h s) as Hf;
        destruct (reloadBase_frame throws h s) as (_ & _ & _ & m1 & Hm1 & F1)
    end.
    unfold exec in Hf. destruct (frame_effects _ _ Hf) as (m2 & Hm2 & F2).
    eexists _, rest, (m1 ++ m2). split; [exact Hrest|].
    split; [|split; [by apply Forall_app|exact Hall]].
    rewrite Hm2, Hm1. simpl. by rewrite <- !app_assoc.
  - eexists _, rest, []. split; [exact Hrest|].
    split; [|split; [constructor|exact Hall]].
    simpl. by rewrite app_nil_r.
Qed.

(** The calls on observers in such a log are calls on registered observers;
    none goes to an observer that is not registered. *)
Lemma notify_only_registered (hs : list Handler) b' b handler
    (called rest more : list Effect) :
  ~ In handler hs ->
  map (fun o => Notify o b') hs = called ++ rest ->
  Forall (fun e => isNotify e = false) more ->
  ~ In (Notify handler b) (called ++ more).
Proof.
  intros Hnot Hpre Hmore Hin. apply in_app_or in Hin as [Hin|Hin].
  - assert (Hin' : In (Notify handler b) (map (fun o => Notify o b') hs)).
    { rewrite Hpre. apply in_or_app. by left. }
    apply in_map_iff in Hin' as (o & [= -> _] & Hin'). done.
  - rewrite Forall_forall in Hmore.
    apply list_elem_of_In, Hmore in Hin. done.
Qed.

(** C7, as stated, fails: an observer that throws stops the notification.
    With the observers 5 and 3 registered in that order and one session
    open, a disable (and likewise a deactivation) in which observer 5 throws
    never calls observer 3, disposes no session and leaves the session in
    the document map, and the exception leaves the function. *)
Lemma C7_throwing_observer_stops_the_rest :
  let h := host_with [entry_for "haskell" [arrow]] [haskell_doc] in
  let st :=
    run observer_5_throws
      [Activate h; OnDidEnabledChange 5; OnDidEnabledChange 3] moduleState in
  onEnabledChangeHandlers st = [5; 3]
  /\ (exists c, documents st = [(uri haskell_doc, c)])
  /\ disablePrettySymbols observer_5_throws st
     = (with_effects (effects st ++ [Notify 5 false]) (with_enabled false st),
        Throw "TypeError")
  /\ deactivate observer_5_throws st
     = (with_effects (effects st ++ [Notify 5 false]) st, Throw "TypeError")
  /\ ~ In (Notify 3 false)
         (effects (exec (disablePrettySymbols observer_5_throws) st))
  /\ documents (exec (disablePrettySymbols observer_5_throws) st)
     = documents st.
Proof.
  simpl. split; [reflexivity|]. split; [by eexists|].
  split; [reflexivity|]. split; [reflexivity|]. split; [|reflexivity].
  vm_compute. intros H. repeat destruct H as [H|H]; try discriminate H. done.
Qed.

(** C7, amended.  When every registered observer and the [dispose] of every
    session return, [disablePrettySymbols] and [deactivate] call every
    registered observer with [false], in registration order, then dispose
    every session of the document map, in the map's order, and empty the
    map.  A throw is not caught: when an observer throws, the observers
    after it are not called, no session is disposed, the map is as it was
    and the exception leaves the function; when a [dispose] throws, the
    sessions after it are not disposed and the map is not emptied.
    [disablePrettySymbols] has set the flag to [false] in every case.
    [enablePrettySymbols] calls the observers with [true] before anything
    else, all of them when they return, and calls no observer after that.
    A new observer is registered behind the existing ones; and after the
    disposable returned by [onDidEnabledChange] is disposed, the observer
    is out of the registry while the others keep their order, and the calls
    that a later disable, deactivate or enable adds to the log include none
    on it. *)
Theorem C7_observers_notified_in_order_then_sessions_unloaded
    throws h st handler :
  let notify b := map (fun o => Notify o b) (onEnabledChangeHandlers st) in
  let dispose (m : JsMap.t PrettyDocumentController) :=
    map (fun kc => Dispose (snd kc)) m in
  let st_gone := exec (onDidEnabledChange_dispose handler) st in
  ((forall log o,
      In o (onEnabledChangeHandlers st) ->
      throws log (Notify o false) = None) ->
   (forall log k c,
      In (k, c) (documents st) -> throws log (Dispose c) = None) ->
   disablePrettySymbols throws st
   = (with_documents []
        (with_effects (effects st ++ notify false ++ dispose (documents st))
           (with_enabled false st)), Ok tt)
   /\ deactivate throws st
      = (with_documents []
           (with_effects (effects st ++ notify false ++ dispose (documents st))
              st), Ok tt))
  /\ (forall before o after err,
        onEnabledChangeHandlers st = before ++ o :: after ->
        (forall log o', In o' before -> throws log (Notify o' false) = None) ->
        throws (effects st ++ map (fun o' => Notify o' false) before)
          (Notify o false) = Some err ->
        disablePrettySymbols throws st
        = (with_effects
             (effects st ++ map (fun o' => Notify o' false) (before ++ [o]))
             (with_enabled false st), Throw err)
        /\ deactivate throws st
           = (with_effects
                (effects st ++ map (fun o' => Notify o' false) (before ++ [o]))
                st, Throw err))
  /\ (forall before k c after err,
        (forall log o,
           In o (onEnabledChangeHandlers st) ->
           throws log (Notify o false) = None) ->
        documents st = before ++ (k, c) :: after ->
        (forall log k' c',
           In (k', c') before -> throws log (Dispose c') = None) ->
        throws (effects st ++ notify false ++ dispose before) (Dispose c)
        = Some err ->
        disablePrettySymbols throws st
        = (with_effects
             (effects st ++ notify false ++ dispose (before ++ [(k, c)]))
             (with_enabled false st), Throw err)
        /\ deactivate throws st
           = (with_effects
                (effects st ++ notify false ++ dispose (before ++ [(k, c)]))
                st, Throw err))
  /\ prettySymbolsEnabled (exec (disablePrettySymbols throws) st) = false
  /\ (exists called rest more,
        notify true = called ++ rest
        /\ effects (exec (enablePrettySymbols throws h) st)
           = effects st ++ called ++ more
        /\ Forall (fun e => isNotify e = false) more
        /\ ((forall log o,
               In o (onEnabledChangeHandlers st) ->
               throws log (Notify o true) = None) ->
            rest = []))
  /\ onEnabledChangeHandlers (exec (onDidEnabledChange handler) st)
     = (if JsSet.has id handler (onEnabledChangeHandlers st)
        then onEnabledChangeHandlers st
        else onEnabledChangeHandlers st ++ [handler])
  /\ (onEnabledChangeHandlers st_gone
      = List.filter (fun o => negb (Nat.eqb o handler))
          (onEnabledChangeHandlers st)
      /\ forall b added,
           effects (exec (disablePrettySymbols throws) st_gone)
           = effects st_gone ++ added
           \/ effects (exec (deactivate throws) st_gone)
              = effects st_gone ++ added
           \/ effects (exec (enablePrettySymbols throws h) st_gone)
              = effects st_gone ++ added ->
           ~ In (Notify handler b) added).
Proof.
  intros notify dispose st_gone. subst notify st_gone.
  change dispose with disposals. clear dispose.
  split; [|split; [|split; [|split; [|split; [|split; [|split]]]]]].
  - intros Hobs Hdis.
    rewrite disablePrettySymbols_eq, deactivate_eq. cbv zeta.
    rewrite (notify_returns throws false _ _ Hobs). simpl.
    rewrite !unloadDocuments_returns by exact Hdis. simpl.
    by rewrite <- !app_assoc.
  - intros before o after err Hhs Hbefore Hthrow.
    rewrite disablePrettySymbols_eq, deactivate_eq. cbv zeta.
    rewrite Hhs, !map_app. simpl.
    rewrite (callAll_first_throw throws _ _ _ _ err); [done| |done].
    intros log' e' He'. apply in_map_iff in He' as (o' & <- & Ho').
    by apply Hbefore.
  - intros before k c after err Hobs Hdocs Hbefore Hthrow.
    rewrite disablePrettySymbols_eq, deactivate_eq. cbv zeta.
    rewrite (notify_returns throws false _ _ Hobs). simpl.
    rewrite !unloadDocuments_eq. simpl. rewrite Hdocs.
    unfold disposals. rewrite !map_app. simpl.
    rewrite (callAll_first_throw throws _ _ _ _ err).
    + simpl. by rewrite <- !app_assoc.
    + intros log' e' He'. apply in_map_iff in He' as ([k' c'] & <- & Hkc).
      by apply (Hbefore log' k' c').
    + by rewrite <- app_assoc.
  - unfold exec. rewrite disablePrettySymbols_eq. cbv zeta.
    destruct (snd (callAll _ _ _)); [|done].
    match goal with
    | |- context [unloadDocuments throws ?s] =>
        pose proof (frame_enabled _ _ (unloadDocuments_frame throws s)) as He
    end.
    unfold exec in He. by rewrite He.
  - apply enablePrettySymbols_effects.
  - done.
  - simpl. induction (onEnabledChangeHandlers st) as [|o l IH]; simpl; [done|].
    destruct (Nat.eqb o handler); simpl; by rewrite IH.
  - pose proof (JsSet_delete_not_in handler (onEnabledChangeHandlers st))
      as Hgone.
    intros b added [Hadd|[Hadd|Hadd]].
    + match type of Hadd with
      | effects (exec (disablePrettySymbols throws) ?s) = _ =>
          destruct (disablePrettySymbols_effects throws s)
            as (called & rest & more & Hpre & Heq & Hmore)
      end.
      rewrite Heq in Hadd. apply app_inv_head in Hadd as <-.
      by eapply notify_only_registered.
    + match type of Hadd with
      | effects (exec (deactivate throws) ?s) = _ =>
          destruct (deactivate_effects throws s)
            as (called & rest & more & Hpre & Heq & Hmore)
      end.
      rewrite Heq in Hadd. apply app_inv_head in Hadd as <-.
      by eapply notify_only_registered.
    + match type of Hadd with
      | effects (exec (enablePrettySymbols throws h) ?s) = _ =>
          destruct (enablePrettySymbols_effects throws h s)
            as (called & rest & more & Hpre & Heq & Hmore & _)
      end.
      rewrite Heq in Hadd. apply app_inv_head in Hadd as <-.
      by eapply notify_only_registered.
Qed.

Lemma C7_witness :
  let h := host_with [entry_for "haskell" [arrow]] [haskell_doc] in
  let st :=
    run never_throws [Activate h; OnDidEnabledChange 5; OnDidEnabledChange 3]
      moduleState in
  ((forall log o,
      In o (onEnabledChangeHandlers st) ->
      never_throws log (Notify o false) = None)
   /\ (forall log k c,
         In (k, c) (documents st) -> never_throws log (Dispose c) = None))
  /\ disablePrettySymbols never_throws st
     = (with_documents []
          (with_effects
             (effects st
              ++ map (fun o => Notify o false) (onEnabledChangeHandlers st)
              ++ map (fun kc => Dispose (snd kc)) (documents st))
             (with_enabled false st)), Ok tt).
Proof.
  intros h st.
  assert (Hobs : forall log o,
            In o (onEnabledChangeHandlers st) ->
            never_throws log (Notify o false) = None) by reflexivity.
  assert (Hdis : forall log k c,
            In (k, c) (documents st) -> never_throws log (Dispose c) = None)
    by reflexivity.
  split; [exact (conj Hobs Hdis)|].
  exact (proj1
           (proj1
              (C7_observers_notified_in_order_then_sessions_unloaded
                 never_throws h st 5) Hobs Hdis)).
Defined.

(** ** Sessions: creation on open, disposal on close *)

Lemma JsMap_get_set {V} (k : Uri) (v : V) (m : JsMap.t V) :
  JsMap.get k (JsMap.set k v m) = Some v.
Proof.
  induction m as [|[k' v'] m IH]; simpl.
  - by rewrite Nat.eqb_refl.
  - destruct (Nat.eqb k' k) eqn:E; simpl.
    + by rewrite Nat.eqb_refl.
    + by rewrite E.
Qed.

Lemma JsMap_get_delete {V} (k : Uri) (m : JsMap.t V) :
  JsMap.get k (JsMap.delete k m) = None.
Proof.
  induction m as [|[k' v'] m IH]; simpl; [done|].
  destruct (Nat.eqb k' k) eqn:E; simpl; [done|]. by rewrite E.
Qed.

Lemma length_pos_nonempty {A} (l : list A) :
  Nat.ltb 0 (length l) = true <-> l <> [].
Proof.
  destruct l; simpl; split; done.
Qed.

(** A resumed [openDocument] logs a rejection, then calls the constructor
    with the grammar the promise delivered, or with none when it was
    rejected, and stores the session when the constructor returns.  It
    never throws. *)
Lemma resumeOpen_stores throws p r st :
  let c :=
    newController st (p_doc p) (p_language p)
      match r with Resolved g => Some g | Rejected _ => None end in
  let logged :=
    match r with Resolved _ => [] | Rejected err => [ConsoleError err] end in
  snd (resumeOpen throws p r st) = Ok tt
  /\ effects (exec (resumeOpen throws p r) st)
     = effects st ++ logged ++ [NewController c]
  /\ match throws (effects st ++ logged) (NewController c) with
     | None =>
         documents (exec (resumeOpen throws p r) st)
         = JsMap.set (uri (p_doc p)) c (documents st)
     | Some _ => documents (exec (resumeOpen throws p r) st) = documents st
     end.
Proof.
  unfold exec. rewrite resumeOpen_eq.
  destruct r as [g|err]; simpl; rewrite ?app_nil_r;
    destruct (throws _ _); simpl; by rewrite <- ?app_assoc.
Qed.

(** C5, as stated, fails, in five ways.  While pretty symbols are disabled,
    a document whose language entry exists and has a substitution is opened
    without any session being created.  While they are enabled, a second
    open of a document that has a session creates nothing: the session in
    the map is refreshed and stays the one it was.  With a registry and a
    scoped rule the open returns with nothing stored, suspended on the
    grammar load.  When the controller's constructor throws, the open
    swallows the exception and stores nothing.  And when [dispose] throws on
    close, the exception leaves [closeDocument] and the session stays in the
    document map. *)
Lemma C5_open_creates_no_session :
  let h := host_with [entry_for "haskell" [arrow]] [] in
  let h' := host_with [entry_for "haskell" [scoped_arrow]] [] in
  let off := run never_throws [Activate h; DisablePrettySymbols] moduleState in
  let on :=
    run never_throws [Activate h; DidOpenTextDocument h haskell_doc]
      moduleState in
  let scoped := run never_throws [Activate h'] moduleState in
  let faulty := run constructor_throws [Activate h] moduleState in
  let stuck :=
    run dispose_throws [Activate h; DidOpenTextDocument h haskell_doc]
      moduleState in
  ((exists language,
       getLanguageEntry off haskell_doc = Some language
       /\ LanguageEntry.substitutions language <> [])
   /\ exec (openDocument never_throws h haskell_doc) off = off
   /\ documents off = [] /\ pending off = [])
  /\ (exists c,
        documents on = [(uri haskell_doc, c)]
        /\ exec (openDocument never_throws h haskell_doc) on
           = with_effects (effects on ++ [Refresh c]) on)
  /\ ((exists language,
         getLanguageEntry scoped haskell_doc = Some language
         /\ LanguageEntry.substitutions language <> [])
      /\ prettySymbolsEnabled scoped = true /\ documents scoped = []
      /\ documents (exec (openDocument never_throws h' haskell_doc) scoped)
         = []
      /\ length (pending (exec (openDocument never_throws h' haskell_doc)
                            scoped)) = 1)
  /\ ((exists language,
         getLanguageEntry faulty haskell_doc = Some language
         /\ LanguageEntry.substitutions language <> [])
      /\ prettySymbolsEnabled faulty = true /\ documents faulty = []
      /\ snd (openDocument constructor_throws h haskell_doc faulty) = Ok tt
      /\ documents (exec (openDocument constructor_throws h haskell_doc)
                      faulty) = []
      /\ pending (exec (openDocument constructor_throws h haskell_doc)
                    faulty) = [])
  /\ (exists c,
        documents stuck = [(uri haskell_doc, c)]
        /\ closeDocument dispose_throws haskell_doc stuck
           = (with_effects (effects stuck ++ [Dispose c]) stuck,
              Throw "TypeError")).
Proof.
  simpl. split; [split; [|by vm_compute]|].
  { eexists. split; [by vm_compute|done]. }
  split; [eexists; split; by vm_compute|].
  split; [split; [|by vm_compute]|].
  { eexists. split; [by vm_compute|done]. }
  split; [split; [|by vm_compute]|].
  { eexists. split; [by vm_compute|done]. }
  eexists. split; by vm_compute.
Qed.

(** C5, amended.  An open never throws.  While pretty symbols are disabled
    it changes nothing.  While they are enabled, opening a document that has
    a session refreshes that session; opening a document that has none does
    something exactly when the document's language entry exists and has a
    non-empty substitution list: with a registry and a rule that names a
    scope, the call is suspended on the grammar load and nothing is stored
    yet; otherwise the controller's constructor is called, with an
    [undefined] grammar, and the session is stored in the document map when
    the constructor returns, and nothing is stored when it throws.  On
    document-close the session's [dispose] is called; when it returns the
    session is removed from the document map, and when it throws the
    exception leaves [closeDocument] and the session stays.  Closing a
    document that has no session leaves the state unchanged. *)
Theorem C5_session_created_on_open_and_disposed_on_close throws h st doc :
  snd (openDocument throws h doc st) = Ok tt
  /\ (prettySymbolsEnabled st = false ->
      exec (openDocument throws h doc) st = st)
  /\ (prettySymbolsEnabled st = true ->
      forall c,
        JsMap.get (uri doc) (documents st) = Some c ->
        exec (openDocument throws h doc) st
        = with_effects (effects st ++ [Refresh c]) st)
  /\ (prettySymbolsEnabled st = true ->
      JsMap.get (uri doc) (documents st) = None ->
      let st' := exec (openDocument throws h doc) st in
      match getLanguageEntry st doc with
      | Some language =>
          if bool_decide (LanguageEntry.substitutions language <> []) then
            if bool_decide (textMateRegistry st <> None) && usesScopes language
            then
              documents st' = documents st
              /\ effects st' = effects st
              /\ pending st'
                 = pending st
                   ++ [{| p_doc := doc; p_language := language;
                          p_scopeName :=
                            js_or (LanguageEntry.textMateInitialScope language)
                              (getLanguageScopeName h (languageId doc)) |}]
            else
              let c := newController st doc language None in
              effects st' = effects st ++ [NewController c]
              /\ pending st' = pending st
              /\ match throws (effects st) (NewController c) with
                 | None =>
                     documents st' = JsMap.set (uri doc) c (documents st)
                     /\ JsMap.get (uri doc) (documents st') = Some c
                 | Some _ => documents st' = documents st
                 end
          else st' = st
      | None => st' = st
      end)
  /\ match JsMap.get (uri doc) (documents st) with
     | Some c =>
         let st' := exec (closeDocument throws doc) st in
         effects st' = effects st ++ [Dispose c]
         /\ match throws (effects st) (Dispose c) with
            | None =>
                snd (closeDocument throws doc st) = Ok tt
                /\ documents st' = JsMap.delete (uri doc) (documents st)
                /\ JsMap.get (uri doc) (documents st') = None
            | Some err =>
                snd (closeDocument throws doc st) = Throw err
                /\ documents st' = documents st
            end
     | None => closeDocument throws doc st = (st, Ok tt)
     end.
Proof.
  split; [apply openDocument_frame|]. split; [|split; [|split]].
  - intros Hoff. unfold exec. by rewrite openDocument_eq, Hoff.
  - intros Hen c Hc. unfold exec. by rewrite openDocument_eq, Hen, Hc.
  - intros Hen Hnone. unfold exec. rewrite openDocument_eq, Hen, Hnone. simpl.
    destruct (getLanguageEntry st doc) as [language|]; [|done].
    case_bool_decide as Hsubs.
    + apply length_pos_nonempty in Hsubs. rewrite Hsubs.
      destruct (bool_decide (textMateRegistry st ≠ None) && usesScopes language);
        [done|].
      destruct (throws (effects st) _); simpl; [done|].
      by rewrite JsMap_get_set.
    + destruct (Nat.ltb 0 _) eqn:Hlen; [|done].
      by apply length_pos_nonempty in Hlen.
  - unfold exec. rewrite closeDocument_eq.
    destruct (JsMap.get (uri doc) (documents st)) as [c|]; simpl; [|done].
    destruct (throws (effects st) (Dispose c)); simpl; [done|].
    repeat split. apply JsMap_get_delete.
Qed.

Lemma C5_witness :
  let h := host_with [entry_for "haskell" [arrow]] [] in
  let st := exec (activate never_throws h) moduleState in
  (prettySymbolsEnabled st = true
   /\ JsMap.get (uri haskell_doc) (documents st) = None)
  /\ JsMap.get (uri haskell_doc)
       (documents (exec (openDocument never_throws h haskell_doc) st))
     = Some (newController st haskell_doc
               (setDefaults (loadSettings (configuration h))
                  (entry_for "haskell" [arrow]))
               None).
Proof.
  simpl. split; [split; reflexivity|].
  exact (proj2 (proj2 (proj2
    (proj1 (proj2 (proj2 (proj2
       (C5_session_created_on_open_and_disposed_on_close never_throws
          (host_with [entry_for "haskell" [arrow]] [])
          (exec (activate never_throws
                   (host_with [entry_for "haskell" [arrow]] []))
             moduleState)
          haskell_doc))))
       eq_refl eq_refl)))).
Defined.

(** ** Grammar loading that fails *)

(** C3: take a document whose language entry has at least one substitution,
    opened while enabled and without a session yet (the case in which
    [openDocument] gets as far as the grammar).  With a missing registry, or
    with no rule that names a scope, [openDocument] itself constructs a
    [PrettyDocumentController] whose grammar is [undefined], and stores it
    when the constructor returns.  With a registry and scoped rules it is
    suspended at the grammar load, and when that load is rejected the
    resumed call logs the error and constructs the controller all the same,
    with an [undefined] grammar, and stores it when the constructor returns;
    it constructs the same controller, grammar aside, as when the load
    succeeds.  Neither path throws. *)
Theorem C3_grammar_failure_still_creates_session
    throws h st doc language :
  getLanguageEntry st doc = Some language ->
  LanguageEntry.substitutions language <> [] ->
  prettySymbolsEnabled st = true ->
  JsMap.get (uri doc) (documents st) = None ->
  let st' := exec (openDocument throws h doc) st in
  let session s g :=
    {| ctl_doc := doc; ctl_language := language;
       ctl_hideTextMethod := Settings.hideTextMethod (settings s);
       ctl_textMateGrammar := g |} in
  snd (openDocument throws h doc st) = Ok tt
  /\ (textMateRegistry st = None ->
      effects st' = effects st ++ [NewController (session st None)]
      /\ (throws (effects st) (NewController (session st None)) = None ->
          JsMap.get (uri doc) (documents st') = Some (session st None)))
  /\ (textMateRegistry st <> None ->
      usesScopes language = false ->
      effects st' = effects st ++ [NewController (session st None)]
      /\ (throws (effects st) (NewController (session st None)) = None ->
          JsMap.get (uri doc) (documents st') = Some (session st None)))
  /\ (textMateRegistry st <> None ->
      usesScopes language = true ->
      exists p,
        pending st' = pending st ++ [p]
        /\ p_doc p = doc /\ p_language p = language
        /\ forall err g st2,
             let failed := exec (resumeOpen throws p (Rejected err)) st2 in
             let loaded := exec (resumeOpen throws p (Resolved g)) st2 in
             snd (resumeOpen throws p (Rejected err) st2) = Ok tt
             /\ effects failed
                = effects st2
                  ++ [ConsoleError err; NewController (session st2 None)]
             /\ (throws (effects st2 ++ [ConsoleError err])
                   (NewController (session st2 None)) = None ->
                 JsMap.get (uri doc) (documents failed)
                 = Some (session st2 None))
             /\ effects loaded
                = effects st2 ++ [NewController (session st2 (Some g))]
             /\ (throws (effects st2) (NewController (session st2 (Some g)))
                 = None ->
                 JsMap.get (uri doc) (documents loaded)
                 = Some (session st2 (Some g)))).
Proof.
  intros Hentry Hsubs Hen Hnone st' session. subst st' session.
  apply length_pos_nonempty in Hsubs.
  unfold exec. rewrite openDocument_eq, Hen, Hnone, Hentry, Hsubs. simpl.
  split; [by repeat case_match|]. split; [|split].
  - intros ->. simpl. unfold newController.
    destruct (throws (effects st) _); simpl; (split; [done|]); [done|].
    intros _. by rewrite JsMap_get_set.
  - intros Hreg ->. rewrite andb_false_r. simpl. unfold newController.
    destruct (throws (effects st) _); simpl; (split; [done|]); [done|].
    intros _. by rewrite JsMap_get_set.
  - intros Hreg ->. rewrite bool_decide_true by done. simpl.
    eexists. split; [reflexivity|]. split; [reflexivity|].
    split; [reflexivity|].
    intros err g st2. simpl.
    pose proof (resumeOpen_stores throws
                  {| p_doc := doc; p_language := language;
                     p_scopeName :=
                       js_or (LanguageEntry.textMateInitialScope language)
                         (getLanguageScopeName h (languageId doc)) |}
                  (Rejected err) st2) as (Hok & Heff & Hdoc).
    pose proof (resumeOpen_stores throws
                  {| p_doc := doc; p_language := language;
                     p_scopeName :=
                       js_or (LanguageEntry.textMateInitialScope language)
                         (getLanguageScopeName h (languageId doc)) |}
                  (Resolved g) st2) as (_ & Heff' & Hdoc').
    unfold exec, newController in *. simpl in *.
    rewrite app_nil_r in Hdoc'.
    split; [exact Hok|]. split; [exact Heff|]. split; [|split; [exact Heff'|]].
    + intros Hret. rewrite Hret in Hdoc. rewrite Hdoc. apply JsMap_get_set.
    + intros Hret. rewrite Hret in Hdoc'. rewrite Hdoc'. apply JsMap_get_set.
Qed.

Lemma C3_witness :
  let h := host_with [entry_for "haskell" [scoped_arrow]] [] in
  let st := exec (activate registry_throws h) moduleState in
  let language :=
    setDefaults (loadSettings (configuration h))
      (entry_for "haskell" [scoped_arrow]) in
  let c :=
    {| ctl_doc := haskell_doc; ctl_language := language;
       ctl_hideTextMethod := Settings.hideTextMethod (settings st);
       ctl_textMateGrammar := None |} in
  (getLanguageEntry st haskell_doc = Some language
   /\ LanguageEntry.substitutions language <> []
   /\ prettySymbolsEnabled st = true
   /\ JsMap.get (uri haskell_doc) (documents st) = None
   /\ textMateRegistry st = None
   /\ registry_throws (effects st) (NewController c) = None)
  /\ JsMap.get (uri haskell_doc)
       (documents (exec (openDocument registry_throws h haskell_doc) st))
     = Some c.
Proof.
  intros h st language c.
  assert (H1 : getLanguageEntry st haskell_doc = Some language)
    by reflexivity.
  assert (H2 : LanguageEntry.substitutions language <> []) by (simpl; done).
  assert (H3 : prettySymbolsEnabled st = true) by reflexivity.
  assert (H4 : JsMap.get (uri haskell_doc) (documents st) = None)
    by reflexivity.
  assert (H5 : textMateRegistry st = None) by reflexivity.
  assert (H6 : registry_throws (effects st) (NewController c) = None)
    by reflexivity.
  split; [done|].
  exact (proj2 (proj1 (proj2
    (C3_grammar_failure_still_creates_session registry_throws h st
       haskell_doc language H1 H2 H3 H4)) H5) H6).
Defined.

(** ** Substitutions registered at runtime *)

(** Nothing that resolves a language entry looks at
    [additionalSubstitutions]. *)
Lemma getLanguageEntry_ignores_additional a st doc :
  getLanguageEntry (with_additional a st) doc = getLanguageEntry st doc.
Proof. reflexivity. Qed.

(** Adding to [additionalSubstitutions] commutes with everything a reload
    does. *)
Lemma openDocument_additional throws h doc a st :
  openDocument throws h doc (with_additional a st)
  = (with_additional a (exec (openDocument throws h doc) st),
     snd (openDocument throws h doc st)).
Proof.
  unfold exec. rewrite !openDocument_eq.
  unfold getLanguageEntry, newController. simpl.
  by repeat case_match.
Qed.

Lemma forEach_openDocument_additional throws h docs a st :
  forEach (openDocument throws h) docs (with_additional a st)
  = (with_additional a (exec (forEach (openDocument throws h) docs) st),
     snd (forEach (openDocument throws h) docs st)).
Proof.
  revert st. induction docs as [|doc docs IH]; intros st; simpl; [done|].
  unfold exec in *. unfold_M. rewrite openDocument_additional. unfold exec.
  destruct (openDocument throws h doc st) as [st1 [[]|err]]; simpl; [|done].
  apply IH.
Qed.

Lemma unloadDocuments_additional throws a st :
  unloadDocuments throws (with_additional a st)
  = (with_additional a (exec (unloadDocuments throws) st),
     snd (unloadDocuments throws st)).
Proof.
  unfold exec. rewrite !unloadDocuments_eq. simpl.
  by destruct (snd (callAll _ _ _)).
Qed.

Lemma reloadConfiguration_additional throws h a st :
  exec (reloadConfiguration throws h) (with_additional a st)
  = with_additional a (exec (reloadConfiguration throws h) st).
Proof.
  assert (Hpre : reloadPrefix throws h (with_additional a st)
                 = with_additional a (reloadPrefix throws h st)).
  { unfold reloadPrefix, afterRegistry. simpl.
    by destruct (throws (effects st) NewRegistry). }
  unfold exec. rewrite !reloadConfiguration_eq.
  unfold reloadUnloads, reloadBase, exec.
  rewrite Hpre, unloadDocuments_additional. simpl.
  destruct (snd (unloadDocuments throws (reloadPrefix throws h st))); [|done].
  by rewrite forEach_openDocument_additional.
Qed.

(** C1 does not hold of the code.  [registerSubstitutions] is a reload plus
    an addition to [additionalSubstitutions], and the reload does not depend
    on that set: the sessions, the pending opens and the settings are those
    of a plain reload.  So an entry for "haskell" registered while no
    "haskell" entry is configured is stored, the haskell document is
    re-opened, and it gets no session (and so no substitution), neither from
    the reload nor when it is opened again. *)
Theorem C1_registered_entry_is_not_applied :
  (forall throws h st registered,
     exec (registerSubstitutions throws h registered) st
     = with_additional
         (JsSet.add fst registered (additionalSubstitutions st))
         (exec (reloadConfiguration throws h) st))
  /\ let h := host_with [] [haskell_doc] in
     let registered := (7, entry_for "haskell" [arrow]) in
     let st :=
       run never_throws [Activate h; RegisterSubstitutions h registered]
         moduleState in
     additionalSubstitutions st = [registered]
     /\ Settings.substitutions (settings st) = []
     /\ getLanguageEntry st haskell_doc = None
     /\ documents st = [] /\ pending st = []
     /\ exec (openDocument never_throws h haskell_doc) st = st.
Proof.
  split; [|by vm_compute].
  intros throws h st registered.
  unfold registerSubstitutions. unfold exec at 1. unfold_M.
  apply reloadConfiguration_additional.
Qed.

(** ** The enabled flag and the document map *)

Lemma forEach_openDocument_disabled throws h docs st :
  prettySymbolsEnabled st = false ->
  forEach (openDocument throws h) docs st = (st, Ok tt).
Proof.
  intros Hoff. induction docs as [|doc docs IH]; simpl; [done|].
  unfold_M. rewrite openDocument_eq, Hoff. simpl. exact IH.
Qed.

(** With no session in the map, the unloading only has the map to empty. *)
Lemma unloadDocuments_empty throws st :
  documents st = [] -> unloadDocuments throws st = (st, Ok tt).
Proof.
  intros Hempty. rewrite unloadDocuments_eq, Hempty. simpl.
  rewrite app_nil_r, with_effects_same. destruct st. simpl in *. by subst.
Qed.

Lemma reloadConfiguration_disabled_means_empty throws h st :
  disabled_means_empty st ->
  disabled_means_empty (exec (reloadConfiguration throws h) st).
Proof.
  intros Hinv Hoff.
  rewrite (frame_enabled _ _ (reloadConfiguration_frame throws h st)) in Hoff.
  destruct (reloadBase_frame throws h st) as (Hen & _).
  destruct (reloadPrefix_fields throws h st) as (_ & Hdocs & _).
  rewrite Hen in Hoff. rewrite (Hinv Hoff) in Hdocs.
  unfold exec. rewrite reloadConfiguration_eq.
  unfold reloadUnloads, reloadBase, exec.
  rewrite (unloadDocuments_empty _ _ Hdocs). simpl.
  rewrite forEach_openDocument_disabled; [done|].
  by destruct (reloadPrefix_fields throws h st) as (-> & _).
Qed.

Lemma disablePrettySymbols_disabled_means_empty throws st :
  observersReturn throws -> disposeReturns throws ->
  disabled_means_empty (exec (disablePrettySymbols throws) st).
Proof.
  intros Hobs Hdis _. unfold exec. rewrite disablePrettySymbols_eq. cbv zeta.
  rewrite notify_returns by (intros; apply Hobs). simpl.
  rewrite unloadDocuments_returns by (intros; apply Hdis). done.
Qed.

Lemma enablePrettySymbols_enabled throws h st :
  prettySymbolsEnabled (exec (enablePrettySymbols throws h) st) = true.
Proof.
  unfold exec. rewrite enablePrettySymbols_eq. cbv zeta.
  destruct (snd (callAll _ _ _)); [|done].
  match goal with
  | |- context [reloadConfiguration throws h ?s] =>
      pose proof (frame_enabled _ _ (reloadConfiguration_frame throws h s))
        as He;
      destruct (reloadBase_frame throws h s) as (Hb & _)
  end.
  unfold exec in He. by rewrite He, Hb.
Qed.

(** When the observers and [dispose] return, every event but the settling
    of a suspended grammar load keeps the document map empty while the flag
    is off. *)
Lemma dispatch_keeps_disabled_means_empty throws ev st :
  observersReturn throws -> disposeReturns throws ->
  (forall i r, ev <> GrammarSettled i r) ->
  disabled_means_empty st ->
  disabled_means_empty (exec (dispatch throws ev) st).
Proof.
  intros Hobs Hdis Hev Hinv. destruct ev; simpl.
  - by apply reloadConfiguration_disabled_means_empty.
  - unfold exec. rewrite openDocument_eq. intros Hoff.
    destruct (prettySymbolsEnabled st) eqn:Hen; simpl in *; [|by apply Hinv].
    cbv zeta in Hoff. repeat case_match; simpl in *; congruence.
  - unfold exec. rewrite closeDocument_eq. intros Hoff.
    destruct (JsMap.get (uri doc) (documents st)) eqn:Hget; simpl in *;
      [|by apply Hinv].
    assert (Hoff' : prettySymbolsEnabled st = false)
      by (by destruct (throws (effects st) _)).
    rewrite (Hinv Hoff') in Hget. done.
  - by apply reloadConfiguration_disabled_means_empty.
  - unfold exec. rewrite selectionChanged_eq.
    repeat (case_match; simpl); exact Hinv.
  - unfold exec. rewrite changeActiveTextEditor_eq.
    repeat (case_match; simpl); exact Hinv.
  - unfold exec. rewrite copyWithSubstitutions_eq.
    repeat (case_match; simpl); exact Hinv.
  - by apply disablePrettySymbols_disabled_means_empty.
  - intros Hoff. by rewrite enablePrettySymbols_enabled in Hoff.
  - unfold exec, togglePrettySymbols. unfold_M.
    destruct (prettySymbolsEnabled st).
    + by apply disablePrettySymbols_disabled_means_empty.
    + intros Hoff.
      pose proof (enablePrettySymbols_enabled throws h st) as He.
      unfold exec in He. congruence.
  - exact Hinv.
  - exact Hinv.
  - unfold exec, registerSubstitutions. unfold_M. simpl.
    by apply reloadConfiguration_disabled_means_empty.
  - exact Hinv.
  - by destruct (Hev i r).
  - unfold exec. rewrite deactivate_eq. cbv zeta.
    rewrite notify_returns by (intros; apply Hobs). simpl.
    rewrite unloadDocuments_returns by (intros; apply Hdis). done.
Qed.

Lemma run_keeps_disabled_means_empty throws evs st :
  observersReturn throws -> disposeReturns throws ->
  forallb (fun ev => negb (isGrammarSettled ev)) evs = true ->
  disabled_means_empty st ->
  disabled_means_empty (run throws evs st).
Proof.
  intros Hobs Hdis. revert st.
  induction evs as [|ev evs IH]; intros st; simpl; [done|].
  rewrite andb_true_iff. intros [Hev Hevs] Hinv. apply IH; [done|].
  apply dispatch_keeps_disabled_means_empty; [done|done| |done].
  intros i r ->. done.
Qed.

(** C9 fails on the code.  The haskell entry has a scoped rule, so the
    [openDocument] that [activate] starts is suspended at
    [await loadGrammar]; the user disables pretty symbols (flag off, map
    emptied); then the grammar arrives and the resumed call stores a session
    without looking at the flag again: the flag is off and the document map
    is not empty.  In general, a resumed call leaves the flag as it finds
    it and, when the constructor returns, stores its session whatever the
    flag is. *)
Theorem C9_session_created_while_disabled :
  (forall throws p r st,
     prettySymbolsEnabled st = false ->
     let st' := exec (resumeOpen throws p r) st in
     let c :=
       newController st (p_doc p) (p_language p)
         match r with Resolved g => Some g | Rejected _ => None end in
     let logged :=
       match r with Resolved _ => [] | Rejected err => [ConsoleError err] end in
     prettySymbolsEnabled st' = false
     /\ (throws (effects st ++ logged) (NewController c) = None ->
         is_Some (JsMap.get (uri (p_doc p)) (documents st'))))
  /\ let h := host_with [entry_for "haskell" [scoped_arrow]] [haskell_doc] in
     let g := GrammarFor (Some "source.haskell") in
     let before :=
       run never_throws [Activate h; DisablePrettySymbols] moduleState in
     let after :=
       exec (dispatch never_throws (GrammarSettled 0 (Resolved g))) before in
     (prettySymbolsEnabled before = false /\ documents before = []
      /\ length (pending before) = 1)
     /\ prettySymbolsEnabled after = false
     /\ is_Some (JsMap.get (uri haskell_doc) (documents after)).
Proof.
  split.
  - intros throws p r st Hoff st' c logged. subst st' c logged. split.
    + by rewrite (frame_enabled _ _ (proj1 (resumeOpen_frame throws p r st))).
    + intros Hret.
      destruct (resumeOpen_stores throws p r st) as (_ & _ & Hdoc).
      simpl in Hdoc. rewrite Hret in Hdoc. rewrite Hdoc, JsMap_get_set.
      by eexists.
  - vm_compute. repeat split. by eexists.
Qed.

Lemma C9_witness :
  let h := host_with [entry_for "haskell" [scoped_arrow]] [haskell_doc] in
  let st := run never_throws [Activate h; DisablePrettySymbols] moduleState in
  let p := {| p_doc := haskell_doc;
              p_language := entry_for "haskell" [scoped_arrow];
              p_scopeName := Some "source.haskell" |} in
  prettySymbolsEnabled st = false
  /\ prettySymbolsEnabled
       (exec (resumeOpen never_throws p (Rejected "ENOENT")) st) = false
  /\ is_Some
       (JsMap.get (uri haskell_doc)
          (documents (exec (resumeOpen never_throws p (Rejected "ENOENT")) st))).
Proof.
  intros h st p.
  assert (Hoff : prettySymbolsEnabled st = false) by reflexivity.
  split; [exact Hoff|].
  destruct (proj1 C9_session_created_while_disabled never_throws p
              (Rejected "ENOENT") st Hoff) as [Hflag Hsession].
  split; [exact Hflag|]. apply Hsession. reflexivity.
Defined.

(** ** The coordinate map: round trips *)

Section Translate.
Import CoordinateMapper.
Variables src dst srcLen dstLen : Breakpoint -> nat.

Local Abbreviation chain_sd := (chain src dst srcLen dstLen).
Local Abbreviation chain_ds := (chain dst src dstLen srcLen).
Local Abbreviation fwd := (translateWith src dst srcLen dstLen).
Local Abbreviation bwd := (translateWith dst src dstLen srcLen).
Local Abbreviation srcBase := (segmentStart src srcLen).
Local Abbreviation dstBase := (segmentStart dst dstLen).

Lemma chain_symmetric se de cm : chain_sd se de cm -> chain_ds de se cm.
Proof.
  revert se de. induction cm as [|b cm IH]; intros se de; simpl; [done|].
  intros (H1 & H2 & H3 & H4 & H5). repeat split; try lia. by apply IH.
Qed.

Lemma chain_lower se de cm :
  chain_sd se de cm -> Forall (fun b => se <= src b /\ de <= dst b) cm.
Proof.
  revert se de. induction cm as [|b cm IH]; intros se de; simpl; [done|].
  intros (H1 & H2 & H3 & H4 & H5). constructor; [lia|].
  eapply Forall_impl; [by apply IH|]. simpl. intros c [? ?]. lia.
Qed.

Lemma lastAtOrBefore_beyond (key : Breakpoint -> nat) x cm found :
  Forall (fun b => x < key b) cm -> lastAtOrBefore key x cm found = found.
Proof.
  revert found. induction cm as [|b cm IH]; intros found Hall; simpl; [done|].
  apply Forall_cons in Hall as [Hb Hall].
  assert (Nat.leb (key b) x = false) as -> by (apply Nat.leb_gt; lia).
  by apply IH.
Qed.

Ltac split_leb :=
  repeat (case_match; try rewrite ?Nat.leb_le, ?Nat.leb_gt in * ); lia.

(** Through one breakpoint and back; the image stays at or after the
    breakpoint and before everything that starts beyond [x]. *)
Lemma translateWith_roundtrip found x :
  admissible src srcLen dstLen found x ->
  bwd found (fwd found x) = x
  /\ (forall a, found = Some a -> dst a <= fwd found x)
  /\ (forall c, x < src c -> srcBase found <= src c ->
        dst c = dstBase found + (src c - srcBase found) ->
        fwd found x < dst c).
Proof.
  destruct found as [a|]; simpl.
  - intros (H1 & H2 & H3 & H4). unfold translateAt. repeat split.
    + split_leb.
    + intros ? [= <-]. split_leb.
    + intros c Hc1 Hc2 Hc3. split_leb.
  - intros _. repeat split; [done|]. intros c ? ? ->. lia.
Qed.

(** The search on the destination side, at the image of [x], ends on the
    breakpoint the search on the source side ended on. *)
Lemma roundtrip_from cm found x :
  chain_sd (srcBase found) (dstBase found) cm ->
  admissible src srcLen dstLen found x ->
  onBoundary src srcLen cm x ->
  let f := lastAtOrBefore src x cm found in
  lastAtOrBefore dst (fwd f x) cm found = f
  /\ bwd f (fwd f x) = x
  /\ (forall a, found = Some a -> dst a <= fwd f x).
Proof.
  revert found. induction cm as [|b cm IH]; intros found Hch Hadm Hb; simpl.
  - destruct (translateWith_roundtrip found x Hadm) as (? & ? & ?). done.
  - simpl in Hch. destruct Hch as (H1 & H2 & H3 & H4 & H5).
    apply Forall_cons in Hb as [Hb Hrest].
    destruct (Nat.leb (src b) x) eqn:Hbx.
    + apply Nat.leb_le in Hbx.
      destruct (IH (Some b)) as (IH1 & IH2 & IH3); try done.
      specialize (IH3 b eq_refl).
      assert (Nat.leb (dst b) (fwd (lastAtOrBefore src x cm (Some b)) x)
              = true) as -> by (by apply Nat.leb_le).
      repeat split; try done.
      intros a ->. simpl in *. lia.
    + apply Nat.leb_gt in Hbx.
      pose proof (chain_lower _ _ _ H5) as Hlow.
      rewrite (lastAtOrBefore_beyond src x cm found).
      2:{ eapply Forall_impl; [exact Hlow|]. simpl. intros c [? ?]. lia. }
      destruct (translateWith_roundtrip found x Hadm) as (R1 & R2 & R3).
      specialize (R3 b Hbx H1 H2).
      assert (Nat.leb (dst b) (fwd found x) = false) as ->
        by (apply Nat.leb_gt; lia).
      rewrite (lastAtOrBefore_beyond dst _ cm found); [done|].
      eapply Forall_impl; [exact Hlow|]. simpl. intros c [? ?]. lia.
Qed.

Lemma translate_roundtrip cm x :
  chain_sd 0 0 cm ->
  onBoundary src srcLen cm x ->
  translate dst src dstLen srcLen cm (translate src dst srcLen dstLen cm x) = x.
Proof.
  intros Hch Hb. destruct (roundtrip_from cm None x Hch I Hb) as (H1 & H2 & _).
  unfold translate. simpl in *. rewrite H1. exact H2.
Qed.

(** Both ends of every breakpoint are on a boundary. *)
Lemma breakpoint_on_boundary se de cm b :
  chain_sd se de cm -> b ∈ cm ->
  onBoundary src srcLen cm (src b)
  /\ onBoundary src srcLen cm (src b + srcLen b).
Proof.
  revert se de. induction cm as [|c cm IH]; intros se de; simpl.
  { intros _ Hin. by apply elem_of_nil in Hin. }
  intros (H1 & H2 & H3 & H4 & H5) Hin.
  pose proof (chain_lower _ _ _ H5) as Hlow.
  apply elem_of_cons in Hin as [->|Hin].
  - split; (constructor; [lia|]);
      (eapply Forall_impl; [exact Hlow|]); simpl; intros d [? ?]; lia.
  - destruct (IH _ _ H5 Hin) as [I1 I2].
    assert (src c + srcLen c <= src b) as Hcb.
    { rewrite Forall_forall in Hlow. apply Hlow in Hin. lia. }
    split; (constructor; [lia|done]).
Qed.

End Translate.

Lemma build_chain ms re pe lo :
  re <= lo -> CoordinateMapper.wellFormedFrom lo ms = true ->
  CoordinateMapper.chain CoordinateMapper.rawOffset
    CoordinateMapper.prettyOffset CoordinateMapper.rawLength
    CoordinateMapper.prettyLength re pe (CoordinateMapper.buildFrom re pe ms).
Proof.
  revert re pe lo. induction ms as [|m ms IH]; intros re pe lo Hle;
    cbn [CoordinateMapper.wellFormedFrom CoordinateMapper.buildFrom]; [done|].
  rewrite !andb_true_iff, !Nat.leb_le, Nat.ltb_lt.
  intros [[[H1 H2] H3] H4].
  destruct (CoordinateMapper.revealed m).
  - apply (IH _ _ (CoordinateMapper.m_end m)); [lia|done].
  - cbn [CoordinateMapper.chain CoordinateMapper.rawOffset
           CoordinateMapper.prettyOffset CoordinateMapper.rawLength
           CoordinateMapper.prettyLength].
    split; [lia|]. split; [done|]. split; [lia|]. split; [done|].
    replace (CoordinateMapper.m_start m
             + (CoordinateMapper.m_end m - CoordinateMapper.m_start m))
      with (CoordinateMapper.m_end m) by lia.
    apply (IH _ _ (CoordinateMapper.m_end m)); [lia|done].
Qed.

(** On the sample line the raw offsets 0..18 are drawn at these pretty
    offsets: 3 (inside "->") snaps back to 2, the revealed match is not
    compressed, and 13..16 snap to an edge of the second glyph. *)
Example toPretty_sample :
  map (CoordinateMapper.toPretty
         (CoordinateMapper.build CoordinateMapper.sample_matches))
    (seq 0 19)
  = [0; 1; 2; 2; 3; 4; 5; 6; 7; 8; 9; 10; 11; 11; 11; 12; 12; 12; 13].
Proof. reflexivity. Qed.

Example toRaw_sample :
  map (CoordinateMapper.toRaw
         (CoordinateMapper.build CoordinateMapper.sample_matches))
    (seq 0 14)
  = [0; 1; 2; 4; 5; 6; 7; 8; 9; 10; 11; 12; 17; 18].
Proof. reflexivity. Qed.

(** An offset strictly inside a collapsed range has no pretty counterpart:
    14, inside [12,17), is drawn at the glyph's start and comes back as 12. *)
Example interior_offset_is_snapped :
  let cm := CoordinateMapper.build CoordinateMapper.sample_matches in
  ~ CoordinateMapper.validRawOffset cm 14
  /\ CoordinateMapper.toRaw cm (CoordinateMapper.toPretty cm 14) = 12.
Proof.
  split; [|reflexivity].
  intros Hv. apply Forall_cons in Hv as [_ Hv].
  apply Forall_cons in Hv as [Hv _]. simpl in Hv. lia.
Qed.

(** C8: whatever the matches of a line and their reveal states, in the map
    built from them [toRaw (toPretty x) = x] for every valid raw offset [x]
    (one not strictly inside a collapsed range), and
    [toPretty (toRaw p) = p] for every pretty offset on a boundary; the start
    and the end of every breakpoint are such offsets, on both sides.  The map
    is a function of the matches alone, so a rebuild that changes nothing
    yields the same map and the same round trips. *)
Theorem C8_coordinate_round_trip ms :
  CoordinateMapper.wellFormed ms = true ->
  let cm := CoordinateMapper.build ms in
  (forall x,
     CoordinateMapper.validRawOffset cm x ->
     CoordinateMapper.toRaw cm (CoordinateMapper.toPretty cm x) = x)
  /\ (forall p,
        CoordinateMapper.validPrettyOffset cm p ->
        CoordinateMapper.toPretty cm (CoordinateMapper.toRaw cm p) = p)
  /\ (forall b, b ∈ cm ->
        let r := CoordinateMapper.rawOffset b in
        let p := CoordinateMapper.prettyOffset b in
        let r' := r + CoordinateMapper.rawLength b in
        let p' := p + CoordinateMapper.prettyLength b in
        CoordinateMapper.toRaw cm (CoordinateMapper.toPretty cm r) = r
        /\ CoordinateMapper.toRaw cm (CoordinateMapper.toPretty cm r') = r'
        /\ CoordinateMapper.toPretty cm (CoordinateMapper.toRaw cm p) = p
        /\ CoordinateMapper.toPretty cm (CoordinateMapper.toRaw cm p') = p').
Proof.
  intros Hwf cm.
  assert (Hch : CoordinateMapper.chain CoordinateMapper.rawOffset
                  CoordinateMapper.prettyOffset CoordinateMapper.rawLength
                  CoordinateMapper.prettyLength 0 0 cm).
  { apply (build_chain ms 0 0 0); [lia|done]. }
  pose proof (chain_symmetric _ _ _ _ _ _ _ Hch) as Hch'.
  assert (Hraw : forall x,
             CoordinateMapper.validRawOffset cm x ->
             CoordinateMapper.toRaw cm (CoordinateMapper.toPretty cm x) = x).
  { intros x Hx. by apply translate_roundtrip. }
  assert (Hpretty : forall p,
             CoordinateMapper.validPrettyOffset cm p ->
             CoordinateMapper.toPretty cm (CoordinateMapper.toRaw cm p) = p).
  { intros p Hp. by apply translate_roundtrip. }
  split; [exact Hraw|]. split; [exact Hpretty|].
  intros b Hin r p r' p'.
  destruct (breakpoint_on_boundary _ _ _ _ _ _ _ b Hch Hin) as [? ?].
  destruct (breakpoint_on_boundary _ _ _ _ _ _ _ b Hch' Hin) as [? ?].
  repeat split; (apply Hraw || apply Hpretty); done.
Qed.

Lemma C8_witness :
  let cm := CoordinateMapper.build CoordinateMapper.sample_matches in
  CoordinateMapper.wellFormed CoordinateMapper.sample_matches = true
  /\ CoordinateMapper.validRawOffset cm 17
  /\ CoordinateMapper.toRaw cm (CoordinateMapper.toPretty cm 17) = 17.
Proof.
  assert (Hv : CoordinateMapper.validRawOffset
                 (CoordinateMapper.build CoordinateMapper.sample_matches) 17).
  { repeat constructor; simpl; lia. }
  split; [reflexivity|]. split; [exact Hv|].
  exact (proj1 (C8_coordinate_round_trip CoordinateMapper.sample_matches
                  eq_refl) 17 Hv).
Defined.

(** * Further properties of the extension *)

(** ** Scope names and grammar files *)

Lemma filter_first_match {A} (f : A -> bool) (l : list A) :
  match List.filter f l with
  | x :: _ =>
      exists before after,
        l = before ++ x :: after /\ f x = true
        /\ Forall (fun y => f y = false) before
  | [] => Forall (fun y => f y = false) l
  end.
Proof.
  induction l as [|a l IH]; simpl; [constructor|].
  destruct (f a) eqn:Hfa.
  - exists [], l. by repeat split.
  - destruct (List.filter f l) as [|x rest].
    + by constructor.
    + destruct IH as (before & after & -> & Hx & Hb).
      exists (a :: before), after. repeat split; [done|]. by constructor.
Qed.

Lemma filter_first_of_split {A} (f : A -> bool) (before after : list A) x :
  Forall (fun y => f y = false) before -> f x = true ->
  exists rest, List.filter f (before ++ x :: after) = x :: rest.
Proof.
  intros Hb Hx. induction Hb as [|a before Ha Hb IH]; simpl.
  - rewrite Hx. by eexists.
  - by rewrite Ha.
Qed.

(** X1: [getLanguageScopeName] answers with the scope name of the first
    grammar contribution made for the language, in the order the extensions
    list them (also when that contribution names no scope: the answer is then
    [undefined]); when no contribution is made for the language it answers
    "source." followed by the languageId. *)
Theorem X1_getLanguageScopeName_first_contribution h lang :
  (Forall (fun g => g_language g <> Some lang) (grammars h) ->
   getLanguageScopeName h lang = Some (String.append "source." lang))
  /\ (forall before g after,
        grammars h = before ++ g :: after ->
        Forall (fun g' => g_language g' <> Some lang) before ->
        g_language g = Some lang ->
        getLanguageScopeName h lang = g_scopeName g).
Proof.
  assert (Hno : forall g, g_language g <> Some lang ->
                  match g_language g with
                  | Some l => String.eqb l lang
                  | None => false
                  end = false).
  { intros g Hg. destruct (g_language g) as [l|]; [|done].
    apply String.eqb_neq. congruence. }
  unfold getLanguageScopeName. split.
  - intros Hall.
    pose proof (filter_first_match
                  (fun g => match g_language g with
                            | Some l => String.eqb l lang
                            | None => false
                            end) (grammars h)) as Hf.
    destruct (List.filter _ _) as [|g rest]; [done|].
    destruct Hf as (before & after & Heq & Hg & _).
    rewrite Heq in Hall. apply Forall_app in Hall as [_ Hall].
    apply Forall_cons in Hall as [Hgl _]. by rewrite (Hno g Hgl) in Hg.
  - intros before g after -> Hb Hg.
    destruct (filter_first_of_split
                (fun g => match g_language g with
                          | Some l => String.eqb l lang
                          | None => false
                          end) before after g) as [rest ->]; [| |done].
    + eapply Forall_impl; [exact Hb|]. intros g' Hg'. by apply Hno.
    + rewrite Hg. apply String.eqb_refl.
Qed.

(** X2: when [openDocument] goes to load a grammar, the scope it asks for
    is the entry's [textMateInitialScope] if that is set and not the empty
    string, and otherwise the scope [getLanguageScopeName] gives for the
    document's languageId; the document map is not touched before the load
    settles. *)
Theorem X2_grammar_scope_precedence throws h st doc language :
  prettySymbolsEnabled st = true ->
  JsMap.get (uri doc) (documents st) = None ->
  getLanguageEntry st doc = Some language ->
  LanguageEntry.substitutions language <> [] ->
  textMateRegistry st <> None ->
  usesScopes language = true ->
  exists p,
    pending (exec (openDocument throws h doc) st) = pending st ++ [p]
    /\ p_doc p = doc
    /\ documents (exec (openDocument throws h doc) st) = documents st
    /\ (forall s,
          LanguageEntry.textMateInitialScope language = Some s -> s <> "" ->
          p_scopeName p = Some s)
    /\ (LanguageEntry.textMateInitialScope language = None
        \/ LanguageEntry.textMateInitialScope language = Some "" ->
        p_scopeName p = getLanguageScopeName h (languageId doc)).
Proof.
  intros Hen Hnone Hentry Hsubs Hreg Huses.
  apply length_pos_nonempty in Hsubs.
  unfold exec. rewrite openDocument_eq, Hen, Hnone, Hentry, Hsubs, Huses.
  rewrite bool_decide_true by done. simpl.
  eexists. split; [done|]. split; [done|]. split; [done|]. simpl. split.
  - intros s -> Hs. simpl. apply String.eqb_neq in Hs. by rewrite Hs.
  - by intros [-> | ->].
Qed.

Lemma X2_witness :
  let h := host_with [haskell_with_scope] [] in
  let st := exec (activate never_throws h) moduleState in
  let language := setDefaults (loadSettings (configuration h))
                    haskell_with_scope in
  (prettySymbolsEnabled st = true
   /\ JsMap.get (uri haskell_doc) (documents st) = None
   /\ getLanguageEntry st haskell_doc = Some language
   /\ LanguageEntry.substitutions language <> []
   /\ textMateRegistry st <> None
   /\ usesScopes language = true)
  /\ exists p,
       pending (exec (openDocument never_throws h haskell_doc) st)
       = pending st ++ [p]
       /\ p_scopeName p = Some "source.hs".
Proof.
  intros h st language.
  assert (H1 : prettySymbolsEnabled st = true) by reflexivity.
  assert (H2 : JsMap.get (uri haskell_doc) (documents st) = None)
    by reflexivity.
  assert (H3 : getLanguageEntry st haskell_doc = Some language)
    by reflexivity.
  assert (H4 : LanguageEntry.substitutions language <> []) by done.
  assert (H5 : textMateRegistry st <> None) by done.
  assert (H6 : usesScopes language = true) by reflexivity.
  split; [done|].
  destruct (X2_grammar_scope_precedence never_throws h st haskell_doc
              language H1 H2 H3 H4 H5 H6) as (p & Hp & _ & _ & Hs & _).
  exists p. split; [exact Hp|]. by apply Hs.
Defined.


Section LocatorFacts.
Variable path_join : string -> string -> string.

(** X3: [grammarLocator.getFilePath] answers with the extension path joined
    with the grammar path of the first contribution that has the scope name;
    it answers [undefined] when no contribution has the scope name, and also
    when that first contribution has no path (the TypeError of [path.join] is
    swallowed), even if a later contribution for the scope has one. *)
Theorem X3_getFilePath_first_contribution all scopeName :
  (Forall (fun e => g_scopeName (contribution e) <> Some scopeName) all ->
   getFilePath path_join all scopeName = None)
  /\ (forall before ext after,
        all = before ++ ext :: after ->
        Forall (fun e => g_scopeName (contribution e) <> Some scopeName)
          before ->
        g_scopeName (contribution ext) = Some scopeName ->
        getFilePath path_join all scopeName
        = match g_path (contribution ext) with
          | Some p => Some (path_join (extensionPath ext) p)
          | None => None
          end).
Proof.
  assert (Hno : forall e, g_scopeName (contribution e) <> Some scopeName ->
                  match g_scopeName (contribution e) with
                  | Some s => String.eqb s scopeName
                  | None => false
                  end = false).
  { intros e He. destruct (g_scopeName (contribution e)) as [s|]; [|done].
    apply String.eqb_neq. congruence. }
  unfold getFilePath. split.
  - intros Hall.
    pose proof (filter_first_match
                  (fun e => match g_scopeName (contribution e) with
                            | Some s => String.eqb s scopeName
                            | None => false
                            end) all) as Hf.
    destruct (List.filter _ _) as [|e rest]; [done|].
    destruct Hf as (before & after & Heq & He & _).
    rewrite Heq in Hall. apply Forall_app in Hall as [_ Hall].
    apply Forall_cons in Hall as [Hel _]. by rewrite (Hno e Hel) in He.
  - intros before ext after -> Hb Hext.
    destruct (filter_first_of_split
                (fun e => match g_scopeName (contribution e) with
                          | Some s => String.eqb s scopeName
                          | None => false
                          end) before after ext) as [rest ->].
    + eapply Forall_impl; [exact Hb|]. intros e He. by apply Hno.
    + rewrite Hext. apply String.eqb_refl.
    + unfold joinPath. by destruct (g_path (contribution ext)).
Qed.

(** X4: when some extension contributes a grammar for the language and every
    contribution has a path, the scope that [getLanguageScopeName] assigns to
    the language is one [getFilePath] finds a grammar file for. *)
Theorem X4_contributed_language_has_grammar_file all c docs lang s :
  Exists (fun e => g_language (contribution e) = Some lang) all ->
  Forall (fun e => is_Some (g_path (contribution e))) all ->
  getLanguageScopeName (host_of all c docs) lang = Some s ->
  is_Some (getFilePath path_join all s).
Proof.
  intros Hex Hpaths Hscope.
  assert (Hin : exists e, In e all /\ g_scopeName (contribution e) = Some s).
  { unfold getLanguageScopeName in Hscope. simpl in Hscope.
    pose proof (filter_first_match
                  (fun g => match g_language g with
                            | Some l => String.eqb l lang
                            | None => false
                            end) (map contribution all)) as Hf.
    destruct (List.filter _ _) as [|g rest].
    - exfalso. apply Exists_exists in Hex as (e & He & Hl).
      rewrite Forall_forall in Hf.
      specialize (Hf (contribution e)). rewrite Hl, String.eqb_refl in Hf.
      enough (true = false) by done. apply Hf.
      apply list_elem_of_In, in_map. by apply list_elem_of_In.
    - destruct Hf as (before & after & Heq & _ & _).
      assert (In g (map contribution all)) as Hg.
      { rewrite Heq. apply in_or_app. right. by left. }
      apply in_map_iff in Hg as (e & <- & He). by exists e. }
  destruct Hin as (e & He & Hs).
  unfold getFilePath.
  pose proof (filter_first_match
                (fun e => match g_scopeName (contribution e) with
                          | Some s' => String.eqb s' s
                          | None => false
                          end) all) as Hf.
  destruct (List.filter _ _) as [|ext rest].
  - exfalso. rewrite Forall_forall in Hf. specialize (Hf e).
    rewrite Hs, String.eqb_refl in Hf.
    enough (true = false) by done. apply Hf. by apply list_elem_of_In.
  - destruct Hf as (before & after & Heq & _ & _).
    rewrite Forall_forall in Hpaths.
    destruct (Hpaths ext) as [p Hp].
    { rewrite Heq. apply list_elem_of_In, in_or_app. right. by left. }
    unfold joinPath. rewrite Hp. by eexists.
Qed.



End LocatorFacts.

Lemma X4_witness :
  let all := [haskell_grammar] in
  let h := host_of all (config_with []) [] in
  (Exists (fun e => g_language (contribution e) = Some "haskell") all
   /\ Forall (fun e => is_Some (g_path (contribution e))) all
   /\ getLanguageScopeName h "haskell" = Some "source.haskell")
  /\ is_Some (getFilePath String.append all "source.haskell").
Proof.
  intros all h.
  assert (H1 : Exists (fun e => g_language (contribution e) = Some "haskell")
                 all) by (by left).
  assert (H2 : Forall (fun e => is_Some (g_path (contribution e))) all).
  { repeat constructor. by eexists. }
  assert (H3 : getLanguageScopeName h "haskell" = Some "source.haskell")
    by reflexivity.
  split; [done|].
  exact (X4_contributed_language_has_grammar_file String.append all
           (config_with []) [] "haskell" "source.haskell" H1 H2 H3).
Defined.

(** ** The document map as a map *)

Lemma JsMap_get_set_ne {V} (k k2 : Uri) (v : V) (m : JsMap.t V) :
  k <> k2 -> JsMap.get k2 (JsMap.set k v m) = JsMap.get k2 m.
Proof.
  intros Hne. induction m as [|[k' v'] m IH]; simpl.
  - apply Nat.eqb_neq in Hne. by rewrite Hne.
  - destruct (Nat.eqb k' k) eqn:E; simpl.
    + apply Nat.eqb_eq in E. subst k'.
      apply Nat.eqb_neq in Hne. by rewrite Hne.
    + by rewrite IH.
Qed.

Lemma JsMap_get_delete_ne {V} (k k2 : Uri) (m : JsMap.t V) :
  k <> k2 -> JsMap.get k2 (JsMap.delete k m) = JsMap.get k2 m.
Proof.
  intros Hne. induction m as [|[k' v'] m IH]; simpl; [done|].
  destruct (Nat.eqb k' k) eqn:E; simpl.
  - apply Nat.eqb_eq in E. subst k'.
    apply Nat.eqb_neq in Hne. by rewrite Hne.
  - by rewrite IH.
Qed.

Lemma JsMap_delete_set_absent {V} (k : Uri) (v : V) (m : JsMap.t V) :
  JsMap.get k m = None -> JsMap.delete k (JsMap.set k v m) = m.
Proof.
  induction m as [|[k' v'] m IH]; simpl.
  - by rewrite Nat.eqb_refl.
  - destruct (Nat.eqb k' k) eqn:E; [done|]. simpl. rewrite E.
    intros Hnone. by rewrite IH.
Qed.

(** X5: opening a document, closing it, or the settling of its grammar load
    leaves the session of every other document as it is. *)
Theorem X5_other_sessions_untouched throws h st doc p r k :
  (k <> uri doc ->
   JsMap.get k (documents (exec (openDocument throws h doc) st))
   = JsMap.get k (documents st))
  /\ (k <> uri doc ->
      JsMap.get k (documents (exec (closeDocument throws doc) st))
      = JsMap.get k (documents st))
  /\ (k <> uri (p_doc p) ->
      JsMap.get k (documents (exec (resumeOpen throws p r) st))
      = JsMap.get k (documents st)).
Proof.
  unfold exec. rewrite openDocument_eq, closeDocument_eq, resumeOpen_eq.
  cbv zeta. repeat split; intros Hk.
  - repeat case_match; simpl; try done. by apply JsMap_get_set_ne.
  - repeat case_match; simpl; try done. by apply JsMap_get_delete_ne.
  - repeat case_match; simpl; try done; by apply JsMap_get_set_ne.
Qed.

(** X6: for a document without a session, an open followed by a close
    leaves the document map exactly as it was, unless the open created a
    session whose [dispose] throws: the close disposes just the session the
    open created, and when that [dispose] throws the session stays. *)
Theorem X6_open_then_close_restores_map throws h st doc :
  JsMap.get (uri doc) (documents st) = None ->
  let opened := exec (openDocument throws h doc) st in
  let closed := exec (closeDocument throws doc) opened in
  match JsMap.get (uri doc) (documents opened) with
  | Some c =>
      effects closed = effects st ++ [NewController c; Dispose c]
      /\ match throws (effects st ++ [NewController c]) (Dispose c) with
         | None => documents closed = documents st
         | Some _ => documents closed = JsMap.set (uri doc) c (documents st)
         end
  | None => closed = opened /\ documents closed = documents st
  end.
Proof.
  intros Hnone opened closed. subst opened closed.
  unfold exec. rewrite openDocument_eq, Hnone. cbv zeta.
  assert (Hsame : forall s,
            documents s = documents st ->
            match JsMap.get (uri doc) (documents s) with
            | Some c =>
                effects (closeDocument throws doc s).1
                = effects st ++ [NewController c; Dispose c]
                /\ match throws (effects st ++ [NewController c]) (Dispose c)
                   with
                   | None => documents (closeDocument throws doc s).1
                             = documents st
                   | Some _ => documents (closeDocument throws doc s).1
                               = JsMap.set (uri doc) c (documents st)
                   end
            | None =>
                (closeDocument throws doc s).1 = s
                /\ documents (closeDocument throws doc s).1 = documents st
            end).
  { intros s Hs. rewrite closeDocument_eq, Hs, Hnone. simpl. by split. }
  destruct (prettySymbolsEnabled st); simpl; [|by apply Hsame].
  destruct (getLanguageEntry st doc) as [language|]; simpl; [|by apply Hsame].
  destruct (Nat.ltb 0 _); simpl; [|by apply Hsame].
  destruct (bool_decide _ && usesScopes language); [by apply Hsame|].
  destruct (throws (effects st) (NewController _)) eqn:Hnew; simpl.
  - rewrite Hnone, closeDocument_eq. simpl. by rewrite Hnone.
  - rewrite JsMap_get_set, closeDocument_eq. simpl. rewrite JsMap_get_set.
    destruct (throws (effects st ++ _) (Dispose _)); simpl.
    + split; [by rewrite <- app_assoc|done].
    + split; [by rewrite <- app_assoc|]. by apply JsMap_delete_set_absent.
Qed.

Lemma X6_witness :
  let h := host_with [entry_for "haskell" [arrow]] [] in
  let st := exec (activate never_throws h) moduleState in
  let c := newController st haskell_doc
             (setDefaults (loadSettings (configuration h))
                (entry_for "haskell" [arrow])) None in
  JsMap.get (uri haskell_doc) (documents st) = None
  /\ effects
       (exec (closeDocument never_throws haskell_doc)
          (exec (openDocument never_throws h haskell_doc) st))
     = effects st ++ [NewController c; Dispose c]
  /\ documents
       (exec (closeDocument never_throws haskell_doc)
          (exec (openDocument never_throws h haskell_doc) st))
     = documents st.
Proof.
  intros h st c.
  assert (H1 : JsMap.get (uri haskell_doc) (documents st) = None)
    by reflexivity.
  split; [exact H1|].
  exact (X6_open_then_close_restores_map never_throws h st haskell_doc H1).
Defined.

(** ** The enabled flag *)

Lemma reloadConfiguration_enabled throws h st :
  prettySymbolsEnabled (exec (reloadConfiguration throws h) st)
  = prettySymbolsEnabled st.
Proof.
  rewrite (frame_enabled _ _ (reloadConfiguration_frame throws h st)).
  by destruct (reloadBase_frame throws h st) as (-> & _).
Qed.

Lemma disablePrettySymbols_disabled throws st :
  prettySymbolsEnabled (exec (disablePrettySymbols throws) st) = false.
Proof.
  unfold exec. rewrite disablePrettySymbols_eq. cbv zeta.
  destruct (snd (callAll _ _ _)); [|done].
  match goal with
  | |- context [unloadDocuments throws ?s] =>
      pose proof (frame_enabled _ _ (unloadDocuments_frame throws s)) as He
  end.
  unfold exec in He. by rewrite He.
Qed.

(** X7: the toggle command negates the enabled flag, whatever the observers
    and the sessions do, and [isEnabled] then reports it; toggling twice
    gives the flag back; and a toggle that turns the flag off leaves no
    session in the document map when the observers and [dispose] return. *)
Theorem X7_toggle_flips_the_flag throws h h' st :
  let once := exec (togglePrettySymbols throws h) st in
  let twice := exec (togglePrettySymbols throws h') once in
  prettySymbolsEnabled once = negb (prettySymbolsEnabled st)
  /\ prettySymbolsEnabled twice = prettySymbolsEnabled st
  /\ isEnabled once = (once, Ok (negb (prettySymbolsEnabled st)))
  /\ ((forall log o,
         In o (onEnabledChangeHandlers st) ->
         throws log (Notify o false) = None) ->
      (forall log k c,
         In (k, c) (documents st) -> throws log (Dispose c) = None) ->
      prettySymbolsEnabled once = false -> documents once = []).
Proof.
  assert (Hflip : forall hh s,
            prettySymbolsEnabled (exec (togglePrettySymbols throws hh) s)
            = negb (prettySymbolsEnabled s)).
  { intros hh s. unfold exec, togglePrettySymbols. unfold_M.
    destruct (prettySymbolsEnabled s) eqn:Hs; simpl.
    - apply disablePrettySymbols_disabled.
    - apply enablePrettySymbols_enabled. }
  intros once twice. subst once twice.
  rewrite !Hflip, negb_involutive. repeat split.
  - unfold isEnabled, gets. by rewrite Hflip.
  - intros Hobs Hdis Hoff. apply negb_false_iff in Hoff.
    unfold exec, togglePrettySymbols. unfold_M. rewrite Hoff.
    rewrite disablePrettySymbols_eq. cbv zeta.
    rewrite (notify_returns throws false _ _ Hobs). simpl.
    by rewrite unloadDocuments_returns by exact Hdis.
Qed.

(** ** Observers: registering twice *)

Lemma JsSet_delete_absent (x : Handler) (s : JsSet.t Handler) :
  ~ In x s -> JsSet.delete id x s = s.
Proof.
  induction s as [|y s IH]; simpl; [done|]. intros Hnot.
  destruct (Nat.eqb y x) eqn:E.
  - apply Nat.eqb_eq in E. subst y. tauto.
  - rewrite IH; [done|tauto].
Qed.

Lemma JsSet_has_In (x : Handler) (s : JsSet.t Handler) :
  JsSet.has id x s = true <-> In x s.
Proof.
  unfold JsSet.has. rewrite existsb_exists. split.
  - intros (y & Hy & E). apply Nat.eqb_eq in E. unfold id in E. by subst y.
  - intros Hin. exists x. split; [done|]. apply Nat.eqb_refl.
Qed.

Lemma JsSet_delete_app (x : Handler) (s t : JsSet.t Handler) :
  JsSet.delete id x (s ++ t) = JsSet.delete id x s ++ JsSet.delete id x t.
Proof.
  induction s as [|y s IH]; simpl; [done|].
  destruct (Nat.eqb y x); simpl; by rewrite IH.
Qed.

(** X8: registering an observer that is already registered changes nothing,
    so disposing one of the two disposables unregisters the observer
    altogether; and registering a new observer and disposing it gives back
    the state before the registration. *)
Theorem X8_observer_registered_twice_is_one_registration st handler :
  let reg1 := exec (onDidEnabledChange handler) st in
  let reg2 := exec (onDidEnabledChange handler) reg1 in
  reg2 = reg1
  /\ ~ In handler
       (onEnabledChangeHandlers (exec (onDidEnabledChange_dispose handler) reg2))
  /\ (~ In handler (onEnabledChangeHandlers st) ->
      exec (onDidEnabledChange_dispose handler) reg1 = st).
Proof.
  intros reg1 reg2. subst reg1 reg2.
  unfold exec, onDidEnabledChange, onDidEnabledChange_dispose, modify. simpl.
  assert (Hhas : JsSet.has id handler
                   (JsSet.add id handler (onEnabledChangeHandlers st)) = true).
  { unfold JsSet.add.
    destruct (JsSet.has id handler (onEnabledChangeHandlers st)) eqn:E;
      [done|].
    apply JsSet_has_In, in_or_app. right. by left. }
  repeat split.
  - unfold JsSet.add at 1. by rewrite Hhas.
  - unfold JsSet.add at 1. rewrite Hhas. apply JsSet_delete_not_in.
  - intros Hnot. unfold JsSet.add.
    destruct (JsSet.has id handler (onEnabledChangeHandlers st)) eqn:E.
    { by apply JsSet_has_In in E. }
    rewrite JsSet_delete_app, JsSet_delete_absent by done. simpl.
    rewrite Nat.eqb_refl, app_nil_r. by destruct st.
Qed.

(** ** Unloading twice *)

Lemma unloadDocuments_ok_empty throws st u :
  snd (unloadDocuments throws st) = Ok u ->
  documents (exec (unloadDocuments throws) st) = [].
Proof.
  unfold exec. rewrite unloadDocuments_eq. cbv zeta.
  by destruct (snd (callAll _ _ _)).
Qed.

Lemma disablePrettySymbols_ok_empty throws st u :
  snd (disablePrettySymbols throws st) = Ok u ->
  documents (exec (disablePrettySymbols throws) st) = [].
Proof.
  unfold exec. rewrite disablePrettySymbols_eq. cbv zeta.
  destruct (snd (callAll _ _ _)); [|done]. apply unloadDocuments_ok_empty.
Qed.

Lemma disablePrettySymbols_handlers throws st :
  onEnabledChangeHandlers (exec (disablePrettySymbols throws) st)
  = onEnabledChangeHandlers st.
Proof.
  unfold exec. rewrite disablePrettySymbols_eq. cbv zeta.
  destruct (snd (callAll _ _ _)); [|done].
  match goal with
  | |- context [unloadDocuments throws ?s] =>
      pose proof (frame_handlers _ _ (unloadDocuments_frame throws s)) as He
  end.
  unfold exec in He. by rewrite He.
Qed.

(** X9: once the sessions are unloaded, unloading again does nothing: a
    second [unloadDocuments] after one that returned changes nothing, and a
    disable or a deactivation that follows a disable that returned calls
    observers and nothing else: it disposes no session. *)
Theorem X9_unload_twice_disposes_once throws st :
  (snd (unloadDocuments throws st) = Ok tt ->
   unloadDocuments throws (exec (unloadDocuments throws) st)
   = (exec (unloadDocuments throws) st, Ok tt))
  /\ (snd (disablePrettySymbols throws st) = Ok tt ->
      let off := exec (disablePrettySymbols throws) st in
      documents off = []
      /\ (exists called rest,
            map (fun o => Notify o false) (onEnabledChangeHandlers st)
            = called ++ rest
            /\ effects (exec (disablePrettySymbols throws) off)
               = effects off ++ called)
      /\ (exists called rest,
            map (fun o => Notify o false) (onEnabledChangeHandlers st)
            = called ++ rest
            /\ effects (exec (deactivate throws) off) = effects off ++ called)).
Proof.
  split.
  - intros Hok. apply unloadDocuments_empty.
    by apply (unloadDocuments_ok_empty throws st tt).
  - intros Hok off.
    pose proof (disablePrettySymbols_ok_empty throws st tt Hok) as Hempty.
    pose proof (disablePrettySymbols_handlers throws st) as Hhs.
    fold off in Hempty, Hhs. split; [exact Hempty|].
    destruct (callAll_prefix throws
                (map (fun o => Notify o false) (onEnabledChangeHandlers off))
                (effects off)) as (rest & Hrest).
    rewrite Hhs in Hrest at 1.
    split; eexists _, rest; (split; [exact Hrest|]); unfold exec.
    + rewrite disablePrettySymbols_eq. cbv zeta.
      destruct (snd (callAll _ _ _)); [|done].
      by rewrite unloadDocuments_empty.
    + rewrite deactivate_eq. cbv zeta.
      destruct (snd (callAll _ _ _)); [|done].
      by rewrite unloadDocuments_empty.
Qed.

Lemma X9_witness :
  let h := host_with [entry_for "haskell" [arrow]] [haskell_doc] in
  let st := run never_throws [Activate h; OnDidEnabledChange 5] moduleState in
  snd (unloadDocuments never_throws st) = Ok tt
  /\ unloadDocuments never_throws (exec (unloadDocuments never_throws) st)
     = (exec (unloadDocuments never_throws) st, Ok tt).
Proof.
  intros h st.
  assert (Hok : snd (unloadDocuments never_throws st) = Ok tt) by reflexivity.
  split; [exact Hok|].
  exact (proj1 (X9_unload_twice_disposes_once never_throws st) Hok).
Defined.

(** ** Defaults *)

(** X10: the default-filling step of [reloadConfiguration] leaves no policy
    field unset, and it is absorbing: an entry that went through it is not
    changed by going through it again, whatever the global defaults have
    become, and an entry with every field set is not changed at all. *)
Theorem X10_setDefaults_absorbs s1 s2 language :
  setDefaults s2 (setDefaults s1 language) = setDefaults s1 language
  /\ defaultsFilled (setDefaults s1 language)
  /\ (defaultsFilled language -> setDefaults s1 language = language).
Proof.
  unfold setDefaults, defaultsFilled. simpl. repeat split.
  - by repeat case_match.
  - by case_match.
  - by case_match.
  - by case_match.
  - by case_match.
  - intros ([a Ha] & [b Hb] & [c Hc] & [d Hd]).
    destruct language. simpl in *. by subst.
Qed.

(** ** Invariants of the reachable states *)

Lemma JsMap_set_keys {V} (k : Uri) (v : V) (m : JsMap.t V) k' :
  In k' (map fst (JsMap.set k v m)) <-> k' = k \/ In k' (map fst m).
Proof.
  induction m as [|[k1 v1] m IH]; simpl.
  - split; intros [H|[]]; subst; by left.
  - destruct (Nat.eqb k1 k) eqn:E; simpl.
    + apply Nat.eqb_eq in E. subst k1.
      split; intros H; repeat destruct H as [H|H]; subst; auto.
    + rewrite IH.
      split; intros H; repeat destruct H as [H|H]; subst; auto.
Qed.

Lemma JsMap_set_NoDup {V} (k : Uri) (v : V) (m : JsMap.t V) :
  NoDup (map fst m) -> NoDup (map fst (JsMap.set k v m)).
Proof.
  induction m as [|[k1 v1] m IH]; simpl; intros Hnd.
  - repeat constructor. by intros ?%elem_of_nil.
  - apply NoDup_cons in Hnd as [Hnot Hnd].
    destruct (Nat.eqb k1 k) eqn:E; simpl.
    + apply Nat.eqb_eq in E. subst k1. by apply NoDup_cons.
    + apply NoDup_cons. split; [|by apply IH].
      rewrite list_elem_of_In, JsMap_set_keys. intros [->|Hin].
      * by rewrite Nat.eqb_refl in E.
      * by apply Hnot, list_elem_of_In.
Qed.

Lemma JsMap_set_Forall {V} (P : Uri * V -> Prop) k v (m : JsMap.t V) :
  P (k, v) -> Forall P m -> Forall P (JsMap.set k v m).
Proof.
  intros Hkv. induction m as [|[k1 v1] m IH]; simpl; intros Hall.
  - by repeat constructor.
  - apply Forall_cons in Hall as [H1 Hall].
    destruct (Nat.eqb k1 k); constructor; auto.
Qed.

Lemma JsMap_delete_incl {V} (k : Uri) (m : JsMap.t V) kv :
  In kv (JsMap.delete k m) -> In kv m.
Proof.
  induction m as [|[k1 v1] m IH]; simpl; [done|].
  destruct (Nat.eqb k1 k); simpl; intuition.
Qed.

Lemma JsMap_delete_Forall {V} (P : Uri * V -> Prop) k (m : JsMap.t V) :
  Forall P m -> Forall P (JsMap.delete k m).
Proof.
  rewrite !Forall_forall. intros Hall kv Hin.
  by apply Hall, list_elem_of_In, (JsMap_delete_incl k), list_elem_of_In.
Qed.

Lemma JsMap_delete_NoDup {V} (k : Uri) (m : JsMap.t V) :
  NoDup (map fst m) -> NoDup (map fst (JsMap.delete k m)).
Proof.
  induction m as [|[k1 v1] m IH]; simpl; intros Hnd; [done|].
  apply NoDup_cons in Hnd as [Hnot Hnd].
  destruct (Nat.eqb k1 k); simpl; [by apply IH|].
  apply NoDup_cons. split; [|by apply IH].
  intros Hin. apply Hnot. apply list_elem_of_In in Hin.
  apply in_map_iff in Hin as (kv & <- & Hin).
  apply list_elem_of_In, in_map. by apply (JsMap_delete_incl k).
Qed.

Lemma JsSet_add_NoDup {A} (key : A -> nat) (x : A) (s : JsSet.t A) :
  NoDup (map key s) -> NoDup (map key (JsSet.add key x s)).
Proof.
  intros Hnd. unfold JsSet.add.
  destruct (JsSet.has key x s) eqn:E; [done|].
  rewrite map_app. apply NoDup_app. repeat split; [done| |].
  - intros k Hk Hx. simpl in Hx. apply list_elem_of_singleton in Hx. subst k.
    apply list_elem_of_In, in_map_iff in Hk as (y & Hy & Hin).
    unfold JsSet.has in E.
    assert (existsb (fun y => Nat.eqb (key y) (key x)) s = true) as E'.
    { apply existsb_exists. exists y. split; [done|]. by apply Nat.eqb_eq. }
    congruence.
  - simpl. apply NoDup_singleton.
Qed.

Lemma JsSet_delete_incl {A} (key : A -> nat) (x y : A) (s : JsSet.t A) :
  In y (JsSet.delete key x s) -> In y s.
Proof.
  induction s as [|z s IH]; simpl; [done|].
  destruct (Nat.eqb (key z) (key x)); simpl; intuition.
Qed.

Lemma JsSet_delete_NoDup {A} (key : A -> nat) (x : A) (s : JsSet.t A) :
  NoDup (map key s) -> NoDup (map key (JsSet.delete key x s)).
Proof.
  induction s as [|z s IH]; simpl; intros Hnd; [done|].
  apply NoDup_cons in Hnd as [Hnot Hnd].
  destruct (Nat.eqb (key z) (key x)); simpl; [by apply IH|].
  apply NoDup_cons. split; [|by apply IH].
  intros Hin. apply Hnot. apply list_elem_of_In in Hin.
  apply in_map_iff in Hin as (y & <- & Hin).
  apply list_elem_of_In, in_map. by apply (JsSet_delete_incl key x).
Qed.

Lemma loadSettings_defaultsFilled c :
  Forall defaultsFilled (Settings.substitutions (loadSettings c)).
Proof.
  unfold loadSettings. simpl. apply Forall_forall. intros e He.
  apply list_elem_of_fmap in He as (e0 & -> & _).
  unfold defaultsFilled, setDefaults. simpl.
  repeat split; by case_match.
Qed.

Lemma getLanguageEntry_Some st doc language :
  getLanguageEntry st doc = Some language ->
  In language (Settings.substitutions (settings st))
  /\ LanguageEntry.language language = languageId doc
  /\ languageId doc <> "plaintext" /\ languageId doc <> "jsonc".
Proof.
  unfold getLanguageEntry.
  destruct (String.eqb (languageId doc) "plaintext") eqn:E1; [done|].
  destruct (String.eqb (languageId doc) "jsonc") eqn:E2; [done|]. simpl.
  intros Hfind. apply find_some in Hfind as [Hin Heq].
  apply String.eqb_eq in Heq. apply String.eqb_neq in E1, E2. done.
Qed.

Lemma getLanguageEntry_entryFor st doc language :
  Forall defaultsFilled (Settings.substitutions (settings st)) ->
  getLanguageEntry st doc = Some language ->
  LanguageEntry.substitutions language <> [] ->
  entryFor doc language.
Proof.
  intros Hall Hentry Hsubs.
  destruct (getLanguageEntry_Some _ _ _ Hentry) as (Hin & Hl & H1 & H2).
  repeat split; try done.
  all: rewrite Forall_forall in Hall;
    apply list_elem_of_In, Hall in Hin; apply Hin.
Qed.

Lemma with_effects_stateOk e st : stateOk st -> stateOk (with_effects e st).
Proof. by intros []. Qed.

Lemma openDocument_stateOk throws h doc st :
  stateOk st -> stateOk (exec (openDocument throws h doc) st).
Proof.
  intros [Hs Hd Hp Hk Hh Ha]. unfold exec. rewrite openDocument_eq. cbv zeta.
  destruct (prettySymbolsEnabled st); simpl; [|done].
  destruct (JsMap.get (uri doc) (documents st)); simpl; [done|].
  destruct (getLanguageEntry st doc) as [language|] eqn:Hentry; simpl;
    [|done].
  destruct (Nat.ltb 0 _) eqn:Hlen; simpl; [|done].
  apply length_pos_nonempty in Hlen.
  pose proof (getLanguageEntry_entryFor _ _ _ Hs Hentry Hlen) as Hfor.
  destruct (bool_decide _ && usesScopes language) eqn:Hload; simpl.
  - apply andb_true_iff in Hload as [_ Huses].
    split; simpl; try done. apply Forall_app. split; [done|].
    constructor; [by split|constructor].
  - destruct (throws (effects st) _); simpl; [done|].
    split; simpl; try done.
    + apply JsMap_set_Forall; [|done]. by split.
    + by apply JsMap_set_NoDup.
Qed.

Lemma resumeOpen_stateOk throws p r st :
  pendingOk p -> stateOk st -> stateOk (exec (resumeOpen throws p r) st).
Proof.
  intros [Hfor Huses] [Hs Hd Hp Hk Hh Ha]. unfold exec. rewrite resumeOpen_eq.
  cbv zeta.
  destruct r; simpl; destruct (throws _ _); simpl; split; simpl; try done;
    try (by apply JsMap_set_NoDup);
    apply JsMap_set_Forall; try done; by split.
Qed.

Lemma forEach_openDocument_inv throws h (P : State -> Prop) docs st :
  (forall doc s, In doc docs -> P s -> P (exec (openDocument throws h doc) s)) ->
  P st -> P (exec (forEach (openDocument throws h) docs) st).
Proof.
  revert st. induction docs as [|doc docs IH]; intros st Hstep HP; simpl;
    [done|].
  unfold exec in *. unfold_M.
  destruct (openDocument_frame throws h doc st) as [_ Hok].
  specialize (Hstep doc st (or_introl eq_refl) HP) as H1.
  destruct (openDocument throws h doc st) as [st1 r]; simpl in *. subst r.
  apply IH; [|done]. intros d s Hd. apply Hstep. by right.
Qed.

Lemma unloadDocuments_stateOk throws st :
  stateOk st -> stateOk (exec (unloadDocuments throws) st).
Proof.
  intros [Hs Hd Hp Hk Hh Ha]. unfold exec. rewrite unloadDocuments_eq.
  cbv zeta. destruct (snd (callAll _ _ _)); split; simpl; try done;
    constructor.
Qed.

Lemma reloadBase_stateOk throws h st :
  stateOk st -> stateOk (reloadBase throws h st).
Proof.
  intros [Hs Hd Hp Hk Hh Ha]. apply unloadDocuments_stateOk.
  unfold reloadPrefix, afterRegistry.
  destruct (throws (effects st) NewRegistry); split; simpl; try done;
    apply loadSettings_defaultsFilled.
Qed.

Lemma reloadConfiguration_stateOk throws h st :
  stateOk st -> stateOk (exec (reloadConfiguration throws h) st).
Proof.
  intros Hok. unfold exec. rewrite reloadConfiguration_eq.
  destruct (reloadUnloads throws h st); [|by apply reloadBase_stateOk].
  apply (forEach_openDocument_inv throws h stateOk).
  - intros doc s _. apply openDocument_stateOk.
  - by apply reloadBase_stateOk.
Qed.

Lemma disablePrettySymbols_stateOk throws st :
  stateOk st -> stateOk (exec (disablePrettySymbols throws) st).
Proof.
  intros Hok. unfold exec. rewrite disablePrettySymbols_eq. cbv zeta.
  destruct (snd (callAll _ _ _)); [apply unloadDocuments_stateOk|];
    by destruct Hok.
Qed.

Lemma enablePrettySymbols_stateOk throws h st :
  stateOk st -> stateOk (exec (enablePrettySymbols throws h) st).
Proof.
  intros Hok. unfold exec. rewrite enablePrettySymbols_eq. cbv zeta.
  destruct (snd (callAll _ _ _)); [apply reloadConfiguration_stateOk|];
    by destruct Hok.
Qed.

Lemma dispatch_stateOk throws ev st :
  stateOk st -> stateOk (exec (dispatch throws ev) st).
Proof.
  intros Hok. destruct ev; simpl.
  - by apply reloadConfiguration_stateOk.
  - by apply openDocument_stateOk.
  - unfold exec. rewrite closeDocument_eq. cbv zeta. destruct Hok.
    repeat case_match; simpl; try done. split; simpl; try done.
    + by apply JsMap_delete_Forall.
    + by apply JsMap_delete_NoDup.
  - by apply reloadConfiguration_stateOk.
  - unfold exec. rewrite selectionChanged_eq.
    repeat (case_match; simpl); try done; by apply with_effects_stateOk.
  - unfold exec. rewrite changeActiveTextEditor_eq.
    repeat (case_match; simpl); try done; by apply with_effects_stateOk.
  - unfold exec. rewrite copyWithSubstitutions_eq.
    repeat (case_match; simpl); try done; by apply with_effects_stateOk.
  - by apply disablePrettySymbols_stateOk.
  - by apply enablePrettySymbols_stateOk.
  - unfold exec, togglePrettySymbols. unfold_M.
    destruct (prettySymbolsEnabled st).
    + by apply disablePrettySymbols_stateOk.
    + by apply enablePrettySymbols_stateOk.
  - destruct Hok. split; simpl; try done.
    rewrite <- (map_id (JsSet.add id handler _)).
    apply JsSet_add_NoDup. by rewrite map_id.
  - destruct Hok. split; simpl; try done.
    rewrite <- (map_id (JsSet.delete id handler _)).
    apply JsSet_delete_NoDup. by rewrite map_id.
  - unfold exec, registerSubstitutions. unfold_M. simpl.
    apply reloadConfiguration_stateOk. destruct Hok. split; simpl; try done.
    by apply JsSet_add_NoDup.
  - destruct Hok. split; simpl; try done. by apply JsSet_delete_NoDup.
  - unfold exec, settle. unfold_M.
    destruct (pending st !! i) as [p|] eqn:Hp; simpl; [|done].
    apply resumeOpen_stateOk.
    + destruct Hok as [_ _ Hpend _ _ _]. rewrite Forall_forall in Hpend.
      apply Hpend. by eapply list_elem_of_lookup_2.
    + destruct Hok as [Hs Hd Hpend Hk Hh Ha]. split; simpl; try done.
      apply Forall_app. split.
      * by apply Forall_take.
      * by apply Forall_drop.
  - unfold exec. rewrite deactivate_eq. cbv zeta.
    destruct (snd (callAll _ _ _)); [apply unloadDocuments_stateOk|];
      by destruct Hok.
Qed.

Lemma moduleState_stateOk : stateOk moduleState.
Proof. split; simpl; constructor. Qed.

Lemma run_stateOk throws evs st :
  stateOk st -> stateOk (run throws evs st).
Proof.
  revert st. induction evs as [|ev evs IH]; intros st Hok; simpl; [done|].
  by apply IH, dispatch_stateOk.
Qed.

(** X11: in every state the extension reaches, the document map holds at
    most one session per uri, each session is stored under the uri of the
    document it was built for, and looking that uri up returns it. *)
Theorem X11_one_session_per_document throws evs :
  let st := run throws evs moduleState in
  NoDup (map fst (documents st))
  /\ forall k c,
       In (k, c) (documents st) ->
       JsMap.get k (documents st) = Some c /\ k = uri (ctl_doc c).
Proof.
  intros st.
  destruct (run_stateOk throws evs moduleState moduleState_stateOk)
    as [_ Hd _ Hk _ _].
  fold st in Hd, Hk. split; [done|].
  intros k c Hin. split.
  - clear Hd. induction (documents st) as [|[k1 c1] m IH]; [done|].
    simpl in *. apply NoDup_cons in Hk as [Hnot Hk].
    destruct Hin as [[= -> ->]|Hin].
    + by rewrite Nat.eqb_refl.
    + destruct (Nat.eqb k1 k) eqn:E; [|by apply IH].
      apply Nat.eqb_eq in E. subst k1. exfalso. apply Hnot.
      apply list_elem_of_In, in_map_iff. by exists (k, c).
  - rewrite Forall_forall in Hd.
    apply list_elem_of_In, Hd in Hin. apply Hin.
Qed.

(** X12: in every state the extension reaches, a session's language entry
    is an entry for the languageId of the session's document, that languageId
    is neither "plaintext" nor "jsonc", and the entry has at least one
    substitution. *)
Theorem X12_sessions_match_their_document throws evs k c :
  In (k, c) (documents (run throws evs moduleState)) ->
  LanguageEntry.language (ctl_language c) = languageId (ctl_doc c)
  /\ languageId (ctl_doc c) <> "plaintext"
  /\ languageId (ctl_doc c) <> "jsonc"
  /\ LanguageEntry.substitutions (ctl_language c) <> [].
Proof.
  intros Hin.
  destruct (run_stateOk throws evs moduleState moduleState_stateOk)
    as [_ Hd _ _ _ _].
  rewrite Forall_forall in Hd. apply list_elem_of_In, Hd in Hin.
  destruct Hin as (_ & (H1 & H2 & H3 & H4 & _) & _). done.
Qed.

Lemma X12_witness :
  let h := host_with [entry_for "haskell" [arrow]] [] in
  let evs := [Activate h; DidOpenTextDocument h haskell_doc] in
  let c := newController (run never_throws evs moduleState) haskell_doc
             (setDefaults (loadSettings (configuration h))
                (entry_for "haskell" [arrow])) None in
  In (uri haskell_doc, c) (documents (run never_throws evs moduleState))
  /\ LanguageEntry.language (ctl_language c) = languageId (ctl_doc c).
Proof.
  intros h evs c.
  assert (H1 : In (uri haskell_doc, c)
                 (documents (run never_throws evs moduleState)))
    by (by left).
  split; [exact H1|].
  exact (proj1 (X12_sessions_match_their_document never_throws evs
                  (uri haskell_doc) c H1)).
Defined.


(** X13: in every state the extension reaches, the language entry of every
    session, of every pending grammar load and of every resolution has
    [revealOn], [adjustCursorMovement], [prettyCursor] and
    [combineIdenticalScopes] defined. *)
Theorem X13_sessions_have_every_policy_field throws evs :
  let st := run throws evs moduleState in
  (forall k c, In (k, c) (documents st) -> defaultsFilled (ctl_language c))
  /\ (forall p, In p (pending st) -> defaultsFilled (p_language p))
  /\ (forall doc language,
        getLanguageEntry st doc = Some language -> defaultsFilled language).
Proof.
  intros st.
  destruct (run_stateOk throws evs moduleState moduleState_stateOk)
    as [Hs Hd Hp _ _ _].
  fold st in Hs, Hd, Hp.
  rewrite Forall_forall in Hs. rewrite Forall_forall in Hd.
  rewrite Forall_forall in Hp.
  split; [|split].
  - intros k c Hin. apply list_elem_of_In, Hd in Hin. apply Hin.
  - intros p Hin. apply list_elem_of_In, Hp in Hin. apply Hin.
  - intros doc language Hentry.
    apply getLanguageEntry_Some in Hentry as [Hin _].
    apply list_elem_of_In, Hs in Hin. apply Hin.
Qed.

(** X14: in every state the extension reaches, a session whose language
    entry has no scoped substitution has no grammar, and a grammar load is
    only ever pending for an entry with a scoped substitution. *)
Theorem X14_grammar_only_for_scoped_rules throws evs :
  let st := run throws evs moduleState in
  (forall k c,
     In (k, c) (documents st) ->
     usesScopes (ctl_language c) = false -> ctl_textMateGrammar c = None)
  /\ (forall p, In p (pending st) -> usesScopes (p_language p) = true).
Proof.
  intros st.
  destruct (run_stateOk throws evs moduleState moduleState_stateOk)
    as [_ Hd Hp _ _ _].
  fold st in Hd, Hp. rewrite Forall_forall in Hd.
  rewrite Forall_forall in Hp. split.
  - intros k c Hin Hno. apply list_elem_of_In, Hd in Hin.
    destruct Hin as (_ & _ & Hg). simpl in Hg.
    destruct (ctl_textMateGrammar c); [|done].
    rewrite Hg in Hno; done.
  - intros p Hin. apply list_elem_of_In, Hp in Hin. apply Hin.
Qed.

(** X15: in every state the extension reaches, no observer is registered
    twice, so a change of the enabled flag calls no observer twice and calls
    registered observers only, and when the notification returns it has
    called each registered observer exactly once. *)
Theorem X15_each_observer_notified_once throws evs b :
  let st := run throws evs moduleState in
  NoDup (onEnabledChangeHandlers st)
  /\ exists notes,
       effects (exec (notifyEnabledChange throws b) st) = effects st ++ notes
       /\ NoDup notes
       /\ (forall e, In e notes ->
           exists o, e = Notify o b /\ In o (onEnabledChangeHandlers st))
       /\ (snd (notifyEnabledChange throws b st) = Ok tt ->
           forall o, In o (onEnabledChangeHandlers st) -> In (Notify o b) notes).
Proof.
  intros st.
  destruct (run_stateOk throws evs moduleState moduleState_stateOk)
    as [_ _ _ _ Hh _].
  fold st in Hh. split; [done|].
  unfold exec. rewrite notifyEnabledChange_eq. cbv zeta. simpl.
  eexists. split; [reflexivity|]. split; [|split].
  - apply callAll_NoDup.
    apply NoDup_fmap; [|done]. by intros x y [= ->].
  - intros e He. apply callAll_incl, in_map_iff in He as (o & <- & Ho).
    by exists o.
  - intros Hok o Ho. rewrite (callAll_ok _ _ _ _ Hok).
    apply in_map_iff. by exists o.
Qed.

(** ** Reloading *)

Lemma getLanguageEntry_settings s1 s2 doc :
  settings s1 = settings s2 -> getLanguageEntry s1 doc = getLanguageEntry s2 doc.
Proof. unfold getLanguageEntry. by intros ->. Qed.

Lemma forEach_openDocument_fresh throws h docs st :
  incl docs (textDocuments h) ->
  Forall (freshSession h (settings st)) (documents st) ->
  Forall (freshSession h (settings st))
    (documents (exec (forEach (openDocument throws h) docs) st)).
Proof.
  intros Hincl Hall.
  pose proof (forEach_openDocument_inv throws h
    (fun s => settings s = settings st
              /\ Forall (freshSession h (settings st)) (documents s))
    docs st) as Hinv.
  apply Hinv; [|done].
  intros doc s Hdoc [Hset Hfresh].
  destruct (openDocument_frame throws h doc s) as [Hf _].
  split; [by rewrite (frame_settings _ _ Hf)|].
  unfold exec. rewrite openDocument_eq. cbv zeta.
  repeat (case_match; simpl); try done.
  apply JsMap_set_Forall; [|done].
  match goal with
  | H : getLanguageEntry s doc = Some _ |- _ =>
      apply getLanguageEntry_Some in H as (Hin & _)
  end.
  unfold freshSession. simpl. rewrite <- Hset. repeat split; try done.
  by apply Hincl.
Qed.

(** What the unloading leaves alone. *)
Lemma unloadDocuments_shape throws st :
  exists d e,
    exec (unloadDocuments throws) st = with_documents d (with_effects e st).
Proof.
  unfold exec. rewrite unloadDocuments_eq. cbv zeta.
  destruct (snd (callAll _ _ _)); simpl.
  - by eexists _, _.
  - eexists (documents st), _. reflexivity.
Qed.

Lemma reloadBase_fields throws h st :
  prettySymbolsEnabled (reloadBase throws h st) = prettySymbolsEnabled st
  /\ pending (reloadBase throws h st) = pending st
  /\ settings (reloadBase throws h st) = loadSettings (configuration h)
  /\ textMateRegistry (reloadBase throws h st)
     = match throws (effects st) NewRegistry with
       | Some _ => None
       | None => Some RegistryOver
       end.
Proof.
  unfold reloadBase.
  destruct (unloadDocuments_shape throws (reloadPrefix throws h st))
    as (d & e & ->).
  unfold reloadPrefix, afterRegistry.
  by destruct (throws (effects st) NewRegistry).
Qed.

(** When the [dispose] of every session returns, the reload gets through
    the unloading. *)
Lemma reloadBase_returns throws h st :
  (forall log k c, In (k, c) (documents st) -> throws log (Dispose c) = None) ->
  reloadUnloads throws h st = Ok tt
  /\ documents (reloadBase throws h st) = []
  /\ exists before,
       effects (reloadBase throws h st)
       = effects st ++ before ++ disposals (documents st).
Proof.
  intros Hdis. unfold reloadUnloads, reloadBase, exec.
  destruct (reloadPrefix_fields throws h st)
    as (_ & Hdocs & _ & _ & _ & _ & before & Hbefore & _).
  rewrite unloadDocuments_returns by (by rewrite Hdocs).
  rewrite Hdocs. do 2 (split; [done|]). exists before.
  change (effects (reloadPrefix throws h st) ++ disposals (documents st)
          = effects st ++ before ++ disposals (documents st)).
  by rewrite Hbefore, <- app_assoc.
Qed.

(** X16: when the [dispose] of every session returns,
    [reloadConfiguration] disposes every session that existed, in the
    document map's order, and every session in the map afterwards was built
    by this reload: it belongs to one of the host's open documents, is
    stored under that document's uri, uses an entry and the
    [hideTextMethod] of the settings just loaded, and has no grammar
    yet. *)
Theorem X16_reload_rebuilds_every_session throws h st :
  (forall log k c, In (k, c) (documents st) -> throws log (Dispose c) = None) ->
  let st' := exec (reloadConfiguration throws h) st in
  Forall (freshSession h (settings st')) (documents st')
  /\ exists before after,
       effects st'
       = effects st ++ before
         ++ map (fun kc => Dispose (snd kc)) (documents st) ++ after.
Proof.
  intros Hdis st'. subst st'. rewrite reloadConfiguration_settings.
  destruct (reloadBase_returns throws h st Hdis)
    as (Hok & Hempty & before & Hbefore).
  unfold exec. rewrite reloadConfiguration_eq, Hok.
  destruct (forEach_openDocument_frame throws h (textDocuments h)
              (reloadBase throws h st)) as [Hf _].
  split.
  - pose proof (forEach_openDocument_fresh throws h (textDocuments h)
                  (reloadBase throws h st)) as Hfresh.
    rewrite reloadBase_settings in Hfresh. apply Hfresh; [by intros x|].
    rewrite Hempty. constructor.
  - destruct (frame_effects _ _ Hf) as (more & Hmore & _).
    unfold exec in Hmore. rewrite Hmore, Hbefore.
    exists before, more. by rewrite <- !app_assoc.
Qed.

Lemma X16_witness :
  let h := host_with [entry_for "haskell" [arrow]] [haskell_doc] in
  let st := run never_throws [Activate h] moduleState in
  let st' := exec (reloadConfiguration never_throws h) st in
  (forall log k c,
     In (k, c) (documents st) -> never_throws log (Dispose c) = None)
  /\ Forall (freshSession h (settings st')) (documents st').
Proof.
  intros h st st'.
  assert (H1 : forall log k c,
            In (k, c) (documents st) -> never_throws log (Dispose c) = None)
    by reflexivity.
  split; [exact H1|].
  exact (proj1 (X16_reload_rebuilds_every_session never_throws h st H1)).
Defined.

Lemma openDocument_keeps_served throws h d old doc st :
  servedSince old doc st ->
  servedSince old doc (exec (openDocument throws h d) st).
Proof.
  intros (added & Hp & Hs). unfold exec. rewrite openDocument_eq. cbv zeta.
  repeat (case_match; simpl); try (by exists added).
  - eexists (added ++ [_]).
    split; [by rewrite Hp, app_assoc|].
    destruct Hs as [Hs|(p & Hin & Hd)]; [by left|].
    right. exists p. split; [|done]. apply in_or_app. by left.
  - exists added. split; [done|].
    destruct Hs as [Hs|Hs]; [|by right]. left. simpl.
    destruct (decide (uri d = uri doc)) as [Heq|Hne].
    + rewrite <- Heq, JsMap_get_set. by eexists.
    + by rewrite JsMap_get_set_ne.
Qed.

Lemma openDocument_serves throws h old added doc language st :
  (forall log c, ctl_doc c = doc -> throws log (NewController c) = None) ->
  prettySymbolsEnabled st = true ->
  pending st = old ++ added ->
  getLanguageEntry st doc = Some language ->
  LanguageEntry.substitutions language <> [] ->
  servedSince old doc (exec (openDocument throws h doc) st).
Proof.
  intros Hctor Hen Hp Hentry Hsubs. apply length_pos_nonempty in Hsubs.
  unfold exec. rewrite openDocument_eq, Hen, Hentry, Hsubs. simpl.
  destruct (JsMap.get (uri doc) (documents st)) as [c|] eqn:Hc; simpl.
  - exists added. split; [done|]. left. simpl. rewrite Hc. by eexists.
  - destruct (bool_decide _ && usesScopes language); simpl.
    + eexists (added ++ [_]). split; [by rewrite Hp, app_assoc|].
      right. eexists. split; [apply in_or_app; right; by left|done].
    + rewrite Hctor by done. exists added. split; [done|]. left. simpl.
      rewrite JsMap_get_set. by eexists.
Qed.

Lemma openDocument_pending throws h doc st :
  exists added, pending (exec (openDocument throws h doc) st)
                = pending st ++ added.
Proof.
  unfold exec. rewrite openDocument_eq. cbv zeta.
  repeat (case_match; simpl); try (exists []; by rewrite app_nil_r).
  by eexists.
Qed.

Lemma forEach_openDocument_serves throws h docs old doc language st :
  (forall log c, ctl_doc c = doc -> throws log (NewController c) = None) ->
  prettySymbolsEnabled st = true ->
  (exists added, pending st = old ++ added) ->
  In doc docs ->
  getLanguageEntry st doc = Some language ->
  LanguageEntry.substitutions language <> [] ->
  servedSince old doc (exec (forEach (openDocument throws h) docs) st).
Proof.
  intros Hctor. revert st.
  induction docs as [|d docs IH]; intros st Hen [added Hp] Hin
    Hentry Hsubs; [done|].
  simpl. unfold exec. unfold_M.
  destruct (openDocument_frame throws h d st) as [Hf Hok].
  pose proof (openDocument_serves throws h old added doc language st Hctor
                Hen Hp Hentry Hsubs) as Hserve.
  destruct (openDocument_pending throws h d st) as (more & Hmore).
  unfold exec in *.
  destruct (openDocument throws h d st) as [st1 r] eqn:Hopen; simpl in *.
  subst r.
  destruct Hin as [->|Hin].
  - rewrite Hopen in Hserve. simpl in Hserve.
    apply (forEach_openDocument_inv throws h (servedSince old doc));
      [|done].
    intros d' s _. apply openDocument_keeps_served.
  - apply (IH st1); try done.
    + by rewrite (frame_enabled _ _ Hf).
    + exists (added ++ more). by rewrite Hmore, Hp, app_assoc.
    + by rewrite (getLanguageEntry_settings st1 st), Hentry
        by apply (frame_settings _ _ Hf).
Qed.

Lemma getLanguageEntry_after_reload throws h st doc :
  getLanguageEntry (exec (reloadConfiguration throws h) st) doc
  = getLanguageEntry (reloadBase throws h st) doc.
Proof.
  apply getLanguageEntry_settings,
    (frame_settings _ _ (reloadConfiguration_frame throws h st)).
Qed.

Lemma reloadConfiguration_serves throws h st doc language :
  (forall log k c, In (k, c) (documents st) -> throws log (Dispose c) = None) ->
  (forall log c, ctl_doc c = doc -> throws log (NewController c) = None) ->
  prettySymbolsEnabled st = true ->
  In doc (textDocuments h) ->
  getLanguageEntry (reloadBase throws h st) doc = Some language ->
  LanguageEntry.substitutions language <> [] ->
  servedSince (pending st) doc (exec (reloadConfiguration throws h) st).
Proof.
  intros Hdis Hctor Hen Hin Hentry Hsubs.
  destruct (reloadBase_returns throws h st Hdis) as [Hok _].
  unfold exec. rewrite reloadConfiguration_eq, Hok.
  destruct (reloadBase_fields throws h st) as (Hb1 & Hb2 & _).
  apply (forEach_openDocument_serves throws h (textDocuments h) (pending st)
           doc language (reloadBase throws h st)); try done.
  - by rewrite Hb1.
  - exists []. by rewrite Hb2, app_nil_r.
Qed.

Lemma forEach_openDocument_no_registry throws h docs st :
  textMateRegistry st = None ->
  pending (exec (forEach (openDocument throws h) docs) st) = pending st.
Proof.
  intros Hreg.
  apply (forEach_openDocument_inv throws h
           (fun s => textMateRegistry s = None /\ pending s = pending st));
    [|done].
  intros doc s _ [Hr Hp].
  destruct (openDocument_frame throws h doc s) as [Hf _].
  split; [by rewrite (frame_registry _ _ Hf)|].
  unfold exec. rewrite openDocument_eq, Hr. simpl.
  by repeat (case_match; simpl).
Qed.

(** X17: while pretty symbols are enabled, a reload in which the [dispose]
    of the old sessions and the constructor of the document's controller
    return leaves every open document whose language entry (in the new
    settings) has a substitution either with a session or with a grammar
    load that this reload started for it. *)
Theorem X17_reload_serves_every_open_document throws h st doc language :
  (forall log k c, In (k, c) (documents st) -> throws log (Dispose c) = None) ->
  (forall log c, ctl_doc c = doc -> throws log (NewController c) = None) ->
  prettySymbolsEnabled st = true ->
  In doc (textDocuments h) ->
  let st' := exec (reloadConfiguration throws h) st in
  getLanguageEntry st' doc = Some language ->
  LanguageEntry.substitutions language <> [] ->
  exists added,
    pending st' = pending st ++ added
    /\ (is_Some (JsMap.get (uri doc) (documents st'))
        \/ exists p, In p added /\ p_doc p = doc).
Proof.
  intros Hdis Hctor Hen Hin st' Hentry Hsubs. subst st'.
  rewrite getLanguageEntry_after_reload in Hentry.
  exact (reloadConfiguration_serves throws h st doc language Hdis Hctor Hen
           Hin Hentry Hsubs).
Qed.

Lemma X17_witness :
  let h := host_with [entry_for "haskell" [arrow]] [haskell_doc] in
  let language := setDefaults (loadSettings (configuration h))
                    (entry_for "haskell" [arrow]) in
  let st' := exec (reloadConfiguration never_throws h) moduleState in
  ((forall log k c,
      In (k, c) (documents moduleState) ->
      never_throws log (Dispose c) = None)
   /\ (forall log c,
         ctl_doc c = haskell_doc -> never_throws log (NewController c) = None)
   /\ prettySymbolsEnabled moduleState = true
   /\ In haskell_doc (textDocuments h)
   /\ getLanguageEntry st' haskell_doc = Some language
   /\ LanguageEntry.substitutions language <> [])
  /\ exists added,
       pending st' = pending moduleState ++ added
       /\ (is_Some (JsMap.get (uri haskell_doc) (documents st'))
           \/ exists p, In p added /\ p_doc p = haskell_doc).
Proof.
  intros h language st'.
  assert (H0 : forall log k c,
            In (k, c) (documents moduleState) ->
            never_throws log (Dispose c) = None) by reflexivity.
  assert (H0' : forall log c,
            ctl_doc c = haskell_doc ->
            never_throws log (NewController c) = None) by reflexivity.
  assert (H1 : prettySymbolsEnabled moduleState = true) by reflexivity.
  assert (H2 : In haskell_doc (textDocuments h)) by (by left).
  assert (H3 : getLanguageEntry st' haskell_doc = Some language)
    by reflexivity.
  assert (H4 : LanguageEntry.substitutions language <> []) by done.
  split; [done|].
  exact (X17_reload_serves_every_open_document never_throws h moduleState
           haskell_doc language H0 H0' H1 H2 H3 H4).
Defined.

Lemma reloadConfiguration_pending_no_registry throws h st :
  textMateRegistry (reloadBase throws h st) = None ->
  pending (exec (reloadConfiguration throws h) st) = pending st.
Proof.
  intros Hreg. destruct (reloadBase_fields throws h st) as (_ & Hb2 & _).
  unfold exec. rewrite reloadConfiguration_eq.
  destruct (reloadUnloads throws h st); [|done].
  pose proof (forEach_openDocument_no_registry throws h (textDocuments h)
                (reloadBase throws h st) Hreg) as Hp.
  unfold exec in Hp. by rewrite Hp.
Qed.

(** X18: when the TextMate registry cannot be constructed, the reload goes
    on: the registry is left [undefined], the error is logged, the settings
    are loaded, no grammar load is started, and (while enabled, and when
    the [dispose] of the old sessions and the constructor of the document's
    controller return) every open document whose language entry has a
    substitution gets its session at once. *)
Theorem X18_reload_without_registry throws h st err :
  throws (effects st) NewRegistry = Some err ->
  let st' := exec (reloadConfiguration throws h) st in
  textMateRegistry st' = None
  /\ In (ConsoleError err) (effects st')
  /\ settings st' = loadSettings (configuration h)
  /\ pending st' = pending st
  /\ (prettySymbolsEnabled st = true ->
      (forall log k c,
         In (k, c) (documents st) -> throws log (Dispose c) = None) ->
      forall doc language,
        (forall log c, ctl_doc c = doc -> throws log (NewController c) = None) ->
        In doc (textDocuments h) ->
        getLanguageEntry st' doc = Some language ->
        LanguageEntry.substitutions language <> [] ->
        is_Some (JsMap.get (uri doc) (documents st'))).
Proof.
  intros Hthrow st'.
  destruct (reloadBase_fields throws h st) as (Hb1 & Hb2 & Hb3 & Hb5).
  rewrite Hthrow in Hb5.
  pose proof (reloadConfiguration_pending_no_registry throws h st Hb5)
    as Hpend.
  pose proof (reloadConfiguration_frame throws h st) as Hf.
  split; [|split; [|split; [|split; [done|]]]].
  - subst st'. by rewrite (frame_registry _ _ Hf).
  - subst st'. destruct (frame_effects _ _ Hf) as (more & -> & _).
    destruct (unloadDocuments_frame throws (reloadPrefix throws h st))
      as [_ _ _ _ _ (m2 & Hm2 & _)].
    fold (reloadBase throws h st) in Hm2. rewrite Hm2.
    unfold reloadPrefix, afterRegistry. rewrite Hthrow. simpl.
    apply in_or_app. left. apply in_or_app. left.
    apply in_or_app. right. right. by left.
  - apply reloadConfiguration_settings.
  - intros Hen Hdis doc language Hctor Hin Hentry Hsubs.
    subst st'. rewrite getLanguageEntry_after_reload in Hentry.
    destruct (reloadConfiguration_serves throws h st doc language
                Hdis Hctor Hen Hin Hentry Hsubs) as (added & Hadd & Hs).
    rewrite Hpend in Hadd.
    rewrite <- (app_nil_r (pending st)) in Hadd at 1.
    apply app_inv_head in Hadd. subst added.
    destruct Hs as [Hs|(p & [] & _)]. done.
Qed.

Lemma X18_witness :
  let h := host_with [entry_for "haskell" [scoped_arrow]] [haskell_doc] in
  let st' := exec (reloadConfiguration registry_throws h) moduleState in
  registry_throws (effects moduleState) NewRegistry = Some "ENOENT"
  /\ textMateRegistry st' = None
  /\ In (ConsoleError "ENOENT") (effects st')
  /\ pending st' = pending moduleState.
Proof.
  intros h st'.
  assert (H1 : registry_throws (effects moduleState) NewRegistry
               = Some "ENOENT") by reflexivity.
  split; [exact H1|].
  destruct (X18_reload_without_registry registry_throws h moduleState
              "ENOENT" H1) as (Hr & He & _ & Hp & _).
  split; [exact Hr|]. split; [exact He|exact Hp].
Defined.





Lemma settle_eq throws i r st p :
  pending st !! i = Some p ->
  settle throws i r st
  = resumeOpen throws p r
      (with_pending (take i (pending st) ++ drop (S i) (pending st)) st).
Proof. intros Hp. unfold settle. unfold_M. by rewrite Hp. Qed.

Lemma closeDocument_pending throws doc st :
  pending (exec (closeDocument throws doc) st) = pending st.
Proof. unfold exec. rewrite closeDocument_eq. by repeat case_match. Qed.

Lemma unloadDocuments_pending throws st :
  pending (exec (unloadDocuments throws) st) = pending st.
Proof. by destruct (unloadDocuments_shape throws st) as (d & e & ->). Qed.

(** X20: nothing cancels a grammar load in flight: closing the document,
    disabling and deactivating leave it pending, whatever [dispose] and the
    observers do; and when it settles after its document was closed, it
    leaves the pending loads and, when the constructor returns, a session
    is stored for the closed document. *)
Theorem X20_pending_load_survives_close throws st i p r :
  pending st !! i = Some p ->
  pending (exec (closeDocument throws (p_doc p)) st) = pending st
  /\ pending (exec (disablePrettySymbols throws) st) = pending st
  /\ pending (exec (deactivate throws) st) = pending st
  /\ let st' :=
       run throws [DidCloseTextDocument (p_doc p); GrammarSettled i r] st in
     pending st' = take i (pending st) ++ drop (S i) (pending st)
     /\ ((forall log c,
            ctl_doc c = p_doc p -> throws log (NewController c) = None) ->
         is_Some (JsMap.get (uri (p_doc p)) (documents st'))).
Proof.
  intros Hp.
  pose proof (closeDocument_pending throws (p_doc p) st) as Hclose.
  split; [done|]. split; [|split].
  - unfold exec. rewrite disablePrettySymbols_eq. cbv zeta.
    destruct (snd (callAll _ _ _)); [|done].
    match goal with
    | |- context [unloadDocuments throws ?s] =>
        pose proof (unloadDocuments_pending throws s) as Hu
    end.
    unfold exec in Hu. by rewrite Hu.
  - unfold exec. rewrite deactivate_eq. cbv zeta.
    destruct (snd (callAll _ _ _)); [|done].
    match goal with
    | |- context [unloadDocuments throws ?s] =>
        pose proof (unloadDocuments_pending throws s) as Hu
    end.
    unfold exec in Hu. by rewrite Hu.
  - cbn [run dispatch].
    set (closed := exec (closeDocument throws (p_doc p)) st) in *.
    assert (Hp' : pending closed !! i = Some p) by (by rewrite Hclose).
    unfold exec at 1 2. rewrite (settle_eq throws i r closed p Hp'), Hclose.
    set (s := with_pending _ closed).
    destruct (resumeOpen_stores throws p r s) as (_ & _ & Hdoc).
    unfold exec in Hdoc. split.
    + rewrite resumeOpen_eq. cbv zeta. by repeat case_match.
    + intros Hctor. rewrite Hctor in Hdoc by done.
      rewrite Hdoc, JsMap_get_set. by eexists.
Qed.

Lemma X20_witness :
  let h := host_with [entry_for "haskell" [scoped_arrow]] [haskell_doc] in
  let st := run never_throws [Activate h] moduleState in
  let p := {| p_doc := haskell_doc;
              p_language := setDefaults (loadSettings (configuration h))
                              (entry_for "haskell" [scoped_arrow]);
              p_scopeName := Some "source.haskell" |} in
  pending st !! 0 = Some p
  /\ pending (exec (closeDocument never_throws (p_doc p)) st) = pending st.
Proof.
  intros h st p.
  assert (H1 : pending st !! 0 = Some p) by reflexivity.
  split; [exact H1|].
  exact (proj1 (X20_pending_load_survives_close never_throws st 0 p
                  (Rejected "ENOENT") H1)).
Defined.
